(** * Shallow embedding of the osbuild image-definition core

    The development follows the Go sources:
    - [src/internal/distro/rhel8/imagetype.go]: the image type of the
      [rhel8] package ([Size], [PackageSets], [getPartitionTable],
      [Manifest], [checkOptions]) and, in the same file, the [scos] package's
      catalogue ([distribution], [architecture], [GetImageType],
      [addImageTypes], [newRockyDistro], [newOEDistro]);
    - [src/pkg/distro/scos/package_sets.go]: [rockyCommitPackageSet];
    - [src/cmd/osbuild-worker/jobimpl-depsolve.go]: the depsolve job.

    Go maps are [gmap]s (a nil map reads like the empty one), a map that is
    only ranged over is the list of its entries in the order of the visit,
    a [(T, error)] result that may also panic is an [outcome], and the
    functions of imported packages are the methods of type classes, so that
    every theorem holds for any behaviour of the imported code. *)

From Stdlib Require Import ZArith Lia Bool DecimalString.
From stdpp Require Import gmap strings list fin_maps sorting.

Local Open Scope string_scope.
Local Open Scope list_scope.

(** ** Go results: a value, a returned [error], or a panic *)

Module Go.

Inductive outcome (E P A : Type) : Type :=
| Ok (a : A)
| Err (e : E)
| Panic (p : P).
Arguments Ok {E P A} a.
Arguments Err {E P A} e.
Arguments Panic {E P A} p.

Definition bind {E P A B} (m : outcome E P A) (k : A -> outcome E P B)
  : outcome E P B :=
  match m with
  | Ok a => k a
  | Err e => Err e
  | Panic p => Panic p
  end.

Definition panics {E P A} (m : outcome E P A) : bool :=
  match m with Panic _ => true | _ => false end.

Definition fails {E P A} (m : outcome E P A) : bool :=
  match m with Err _ => true | _ => false end.

(** [strconv.Itoa] and the [%d] verb of [fmt.Sprintf]. *)
Definition Itoa (n : Z) : string := NilZero.string_of_int (Z.to_int n).

(** The order of [sort.Strings]: byte by byte, a proper prefix first. *)
Definition strLe (a b : string) : Prop := String.leb a b = true.

#[global] Instance strLe_dec : RelDecision strLe :=
  fun a b => decide (String.leb a b = true).

(** [sort.Strings]: the list in increasing order.  Equal strings cannot be
    told apart, so every sorting algorithm gives the same list. *)
Definition sortStrings (l : list string) : list string :=
  merge_sort strLe l.

(** The keys of a map, in the order in which [range] visits it. *)
Definition keys {A} (visit : gmap string A -> list (string * A))
    (m : gmap string A) : list string :=
  (visit m).*1.

End Go.

#[global] Instance outcome_bind {E P} : MBind (Go.outcome E P) :=
  fun A B k m => Go.bind m k.
#[global] Instance outcome_ret {E P} : MRet (Go.outcome E P) :=
  fun A a => Go.Ok a.

(** ** Package [rpmmd]: package sets *)

Module rpmmd.

Record RepoConfig := {
  RepoName : string;
  BaseURL : string;
  RepoPackageSets : list string
}.

Record PackageSet := {
  Include : list string;
  Exclude : list string;
  Repositories : list RepoConfig
}.

Definition empty : PackageSet :=
  {| Include := []; Exclude := []; Repositories := [] |}.

(** Modelled from the spec: [rpmmd.PackageSet.Append], a method of the
    [rpmmd] package, which is not among the sources.  The specification
    gives it as the concatenation of the include lists, of the exclude
    lists and of the repositories, in this order. *)
Definition Append (a b : PackageSet) : PackageSet :=
  {| Include := Include a ++ Include b;
     Exclude := Exclude a ++ Exclude b;
     Repositories := Repositories a ++ Repositories b |}.

End rpmmd.

(** ** Package [scos]: the catalogue *)

Module scos.

Definition osPkgsKey := "os".
Definition containerPkgsKey := "container".
Definition installerPkgsKey := "installer".
Definition blueprintPkgsKey := "blueprint".

Definition scosServices : list string :=
  ["sshd.service"; "containerd.service"; "docker.service"].

(** [distro.ImageConfig], by the fields the catalogue sets. *)
Record ImageConfig := {
  Timezone : option string;
  Locale : option string;
  EnabledServices : list string
}.

(** The platforms handed to [addImageTypes]. *)
Inductive Platform :=
| X86 (BIOS : bool) (UEFIVendor : string)
| Aarch64 (UEFIVendor : string).

Inductive Runner := CentOS (Version : Z).

(** The image constructors named by the catalogue; their code is in
    another file of the package. *)
Inductive imageFunc := iotCommitImage | iotContainerImage.

(** [src/pkg/distro/scos/package_sets.go].  The function ignores its
    receiver, so it is the set it returns. *)
Definition rockyCommitPackageSet : rpmmd.PackageSet :=
  {| rpmmd.Include :=
       ["rocky-release"; "basesystem"; "network-scripts"; "kernel";
        "glibc"; "tmux"; "nss-altfiles"; "glibc-minimal-langpack";
        "lvm2"; "cryptsetup"; "dracut"; "dracut-config-generic";
        "bash"; "bash-completion"; "crontabs"; "logrotate";
        "coreutils"; "which"; "curl"; "wget"; "openssl"; "jq";
        "hostname"; "iproute"; "iputils"; "iptables";
        "openssh-clients"; "openssh-server"; "passwd";
        "dnsmasq"; "traceroute"; "tcpdump"; "net-tools";
        "tar"; "gzip"; "xz"; "man"; "polkit";
        "e2fsprogs"; "xfsprogs"; "dosfstools";
        "sudo"; "systemd"; "util-linux"; "vim-minimal";
        "setools-console"; "kernel-tools";
        "setup"; "shadow-utils"; "attr"; "audit";
        "policycoreutils"; "selinux-policy-targeted";
        "procps-ng"; "rpm"; "rpm-ostree";
        "keyutils"; "cracklib-dicts";
        "gnupg2"; "pinentry"; "cloud-init";
        "grub2"; "grub2-efi-x64"; "efibootmgr"; "shim-x64";
        "containerd.io"; "docker-ce"; "docker-compose-plugin"];
     rpmmd.Exclude :=
       ["geolite2-city"; "geolite2-country"; "glibc-all-langpacks";
        "mozjs78"];
     rpmmd.Repositories := [] |}.

(** The [imageType] struct of the catalogue.  [arch] is the non-owning
    back-reference to the architecture, kept as its name ([None] before
    registration); a package-set constructor is kept as the set it
    returns. *)
Record imageType := {
  arch : option string;
  platform : option Platform;
  name : string;
  nameAliases : list string;
  filename : string;
  mimeType : string;
  packageSets : gmap string rpmmd.PackageSet;
  defaultImageConfig : option ImageConfig;
  buildPipelines : list string;
  payloadPipelines : list string;
  exports : list string;
  image : option imageFunc;
  bootISO : bool;
  rpmOstree : bool
}.

Definition scosRockyCommitImgType : imageType :=
  {| arch := None; platform := None;
     name := "ostree-commit";
     nameAliases := ["scos-rocky-commit"];
     filename := "commit.tar";
     mimeType := "application/x-tar";
     packageSets := {[ osPkgsKey := rockyCommitPackageSet ]};
     defaultImageConfig :=
       Some {| Timezone := None; Locale := None;
               EnabledServices := scosServices |};
     rpmOstree := true;
     bootISO := false;
     image := Some iotCommitImage;
     buildPipelines := ["build"];
     payloadPipelines := ["os"; "ostree-commit"; "commit-archive"];
     exports := ["commit-archive"] |}.

Definition scosRockyOCIImgType : imageType :=
  {| arch := None; platform := None;
     name := "ostree-container";
     nameAliases := ["scos-rocky-container"];
     filename := "container.tar";
     mimeType := "application/x-tar";
     packageSets :=
       <[ containerPkgsKey := rpmmd.empty ]>
         {[ osPkgsKey := rockyCommitPackageSet ]};
     defaultImageConfig :=
       Some {| Timezone := None; Locale := None;
               EnabledServices := scosServices |};
     rpmOstree := true;
     bootISO := false;
     image := Some iotContainerImage;
     buildPipelines := ["build"];
     payloadPipelines :=
       ["os"; "ostree-commit"; "container-tree"; "container"];
     exports := ["container"] |}.

Definition scosOECommitImgType : imageType :=
  {| arch := None; platform := None;
     name := "ostree-commit";
     nameAliases := ["scos-oe-commit"];
     filename := "commit.tar";
     mimeType := "application/x-tar";
     packageSets := {[ osPkgsKey := rockyCommitPackageSet ]};
     defaultImageConfig :=
       Some {| Timezone := None; Locale := None;
               EnabledServices := scosServices |};
     rpmOstree := true;
     bootISO := false;
     image := Some iotCommitImage;
     buildPipelines := ["build"];
     payloadPipelines := ["os"; "ostree-commit"; "commit-archive"];
     exports := ["commit-archive"] |}.

Definition scosOEOCIImgType : imageType :=
  {| arch := None; platform := None;
     name := "ostree-container";
     nameAliases := ["scos-oe-container"];
     filename := "container.tar";
     mimeType := "application/x-tar";
     packageSets :=
       <[ containerPkgsKey := rpmmd.empty ]>
         {[ osPkgsKey := rockyCommitPackageSet ]};
     defaultImageConfig :=
       Some {| Timezone := None; Locale := None;
               EnabledServices := scosServices |};
     rpmOstree := true;
     bootISO := false;
     image := Some iotContainerImage;
     buildPipelines := ["build"];
     payloadPipelines :=
       ["os"; "ostree-commit"; "container-tree"; "container"];
     exports := ["container"] |}.

(** The commit type, registered under an alias that is the name of the
    container type (an input of [addImageTypes], not an entry of the
    catalogue). *)
Definition aliasedCommitImgType : imageType :=
  {| arch := None; platform := None;
     name := "ostree-commit";
     nameAliases := ["ostree-container"];
     filename := "commit.tar";
     mimeType := "application/x-tar";
     packageSets := {[ osPkgsKey := rockyCommitPackageSet ]};
     defaultImageConfig :=
       Some {| Timezone := None; Locale := None;
               EnabledServices := scosServices |};
     rpmOstree := true;
     bootISO := false;
     image := Some iotCommitImage;
     buildPipelines := ["build"];
     payloadPipelines := ["os"; "ostree-commit"; "commit-archive"];
     exports := ["commit-archive"] |}.

(** [architecture]: [distro] is the back-reference to the owning
    distribution, kept as its name. *)
Record architecture := {
  distro : string;
  archName : string;
  imageTypes : gmap string imageType;
  imageTypeAliases : gmap string string
}.

Record distribution := {
  distroName : string;
  product : string;
  osVersion : string;
  releaseVersion : string;
  modulePlatformID : string;
  ostreeRefTmpl : string;
  isolabelTmpl : string;
  runner : Runner;
  arches : gmap string architecture;
  distroImageConfig : option ImageConfig
}.

Definition defaultDistroImageConfig : ImageConfig :=
  {| Timezone := Some "UTC"; Locale := Some "en_US";
     EnabledServices := [] |}.

(** [getDistro]: the [default] case falls through to ["rocky"].  The
    [%%s] of the templates is left as [%s] by [fmt.Sprintf]. *)
Definition getDistro (base : string) (version : Z) : distribution :=
  if String.eqb base "oe" then
    {| distroName := "scos-oe-" +:+ Go.Itoa version;
       product := "SCOS";
       osVersion := Go.Itoa version;
       releaseVersion := Go.Itoa version;
       modulePlatformID := "platform:oe" +:+ Go.Itoa version;
       ostreeRefTmpl := "scos/oe" +:+ Go.Itoa version +:+ "/%s/os";
       isolabelTmpl :=
         "SCOS-OpenEuler" +:+ Go.Itoa version +:+ "-BaseOS-%s";
       runner := CentOS 8;
       arches := ∅;
       distroImageConfig := Some defaultDistroImageConfig |}
  else
    {| distroName := "scos-rocky-" +:+ Go.Itoa version;
       product := "SCOS";
       osVersion := Go.Itoa version;
       releaseVersion := Go.Itoa version;
       modulePlatformID := "platform:el" +:+ Go.Itoa version;
       ostreeRefTmpl := "scos/rocky" +:+ Go.Itoa version +:+ "/%s/os";
       isolabelTmpl := "SCOS-Rocky" +:+ Go.Itoa version +:+ "-BaseOS-%s";
       runner := CentOS 8;
       arches := ∅;
       distroImageConfig := Some defaultDistroImageConfig |}.

(** The values a panic of this package carries. *)
Inductive panicValue :=
| AliasToMissingImageType (name aliasForName : string)
| AliasAlreadyDefined (alias itName existingAliasFor : string).

(** The [error] of [GetImageType] and [GetArch]. *)
Inductive error :=
| InvalidImageType (name : string)
| InvalidArchitecture (name : string).

Definition result := Go.outcome error panicValue.

Definition GetImageType (a : architecture) (name : string)
  : result imageType :=
  match imageTypes a !! name with
  | Some t => Go.Ok t
  | None =>
      match imageTypeAliases a !! name with
      | None => Go.Err (InvalidImageType name)
      | Some aliasForName =>
          match imageTypes a !! aliasForName with
          | Some t => Go.Ok t
          | None => Go.Panic (AliasToMissingImageType name aliasForName)
          end
      end
  end.

(** The inner loop of [addImageTypes], over [it.nameAliases]. *)
Fixpoint addAliases (itName : string) (aliases : list string)
    (table : gmap string string) : result (gmap string string) :=
  match aliases with
  | [] => Go.Ok table
  | alias :: rest =>
      match table !! alias with
      | Some existingAliasFor =>
          Go.Panic (AliasAlreadyDefined alias itName existingAliasFor)
      | None => addAliases itName rest (<[ alias := itName ]> table)
      end
  end.

(** The copy [it] of an image type, bound to its architecture. *)
Definition bindTo (a : architecture) (p : Platform) (it : imageType)
  : imageType :=
  {| arch := Some (archName a); platform := Some p;
     name := name it; nameAliases := nameAliases it;
     filename := filename it; mimeType := mimeType it;
     packageSets := packageSets it;
     defaultImageConfig := defaultImageConfig it;
     buildPipelines := buildPipelines it;
     payloadPipelines := payloadPipelines it;
     exports := exports it; image := image it;
     bootISO := bootISO it; rpmOstree := rpmOstree it |}.

Fixpoint addImageTypes (p : Platform) (its : list imageType)
    (a : architecture) : result architecture :=
  match its with
  | [] => Go.Ok a
  | it0 :: rest =>
      let it := bindTo a p it0 in
      let types := <[ name it := it ]> (imageTypes a) in
      table ← addAliases (name it) (nameAliases it) (imageTypeAliases a);
      addImageTypes p rest
        {| distro := distro a; archName := archName a;
           imageTypes := types; imageTypeAliases := table |}
  end.

Definition newArchitecture (d : distribution) (n : string) : architecture :=
  {| distro := distroName d; archName := n;
     imageTypes := ∅; imageTypeAliases := ∅ |}.

Definition addArches (d : distribution) (archs : list architecture)
  : distribution :=
  {| distroName := distroName d; product := product d;
     osVersion := osVersion d; releaseVersion := releaseVersion d;
     modulePlatformID := modulePlatformID d;
     ostreeRefTmpl := ostreeRefTmpl d; isolabelTmpl := isolabelTmpl d;
     runner := runner d;
     arches :=
       fold_left (fun m a => <[ archName a := a ]> m) archs (arches d);
     distroImageConfig := distroImageConfig d |}.

Definition GetArch (d : distribution) (n : string)
  : result architecture :=
  match arches d !! n with
  | Some a => Go.Ok a
  | None => Go.Err (InvalidArchitecture n)
  end.

Definition ARCH_X86_64 := "x86_64".
Definition ARCH_AARCH64 := "aarch64".

Definition newRockyDistro (base : string) (version : Z)
  : result distribution :=
  let rd := getDistro base version in
  x86_64 ← addImageTypes (X86 true "smartx")
              [scosRockyCommitImgType; scosRockyOCIImgType]
              (newArchitecture rd ARCH_X86_64);
  aarch64 ← addImageTypes (Aarch64 "smartx")
              [scosRockyCommitImgType; scosRockyOCIImgType]
              (newArchitecture rd ARCH_AARCH64);
  Go.Ok (addArches rd [x86_64; aarch64]).

Definition newOEDistro (base : string) (version : Z)
  : result distribution :=
  let rd := getDistro base version in
  x86_64 ← addImageTypes (X86 true "smartx")
              [scosOECommitImgType; scosOEOCIImgType]
              (newArchitecture rd ARCH_X86_64);
  aarch64 ← addImageTypes (Aarch64 "smartx")
              [scosOECommitImgType; scosOEOCIImgType]
              (newArchitecture rd ARCH_AARCH64);
  Go.Ok (addArches rd [x86_64; aarch64]).

(** The [x86_64] architecture of the Rocky distribution, as
    [newRockyDistro] fills it. *)
Definition rockyX86 : result architecture :=
  addImageTypes (X86 true "smartx")
    [scosRockyCommitImgType; scosRockyOCIImgType]
    (newArchitecture (getDistro "rocky" 8) ARCH_X86_64).

Definition NewRocky8 := newRockyDistro "rocky" 8.
Definition NewOE1 := newOEDistro "oe" 1.

(** Every image type of the architecture is stored under its own name,
    as a copy bound to the architecture and to a platform. *)
Definition boundCopies (a : architecture) : Prop :=
  forall n t,
    imageTypes a !! n = Some t ->
    name t = n /\ arch t = Some (archName a) /\ is_Some (platform t).

(** The aliases that a call of [addImageTypes] registers, in the order of
    the two loops. *)
Definition aliasesOf (its : list imageType) : list string :=
  its ≫= nameAliases.

(** The methods of [distribution] and [architecture] that list. *)
Definition Name (d : distribution) : string := distroName d.
Definition Releasever (d : distribution) : string := releaseVersion d.
Definition ModulePlatformID (d : distribution) : string :=
  modulePlatformID d.
Definition OSTreeRef (d : distribution) : string := ostreeRefTmpl d.

Definition ListArches
    (visit : gmap string architecture -> list (string * architecture))
    (d : distribution) : list string :=
  Go.sortStrings (Go.keys visit (arches d)).

Definition ListImageTypes
    (visit : gmap string imageType -> list (string * imageType))
    (a : architecture) : list string :=
  Go.sortStrings (Go.keys visit (imageTypes a)).

(** An architecture whose two maps were filled by [addImageTypes] only,
    starting from the empty maps of a fresh [architecture] value. *)
Inductive populated : architecture -> Prop :=
| populated_fresh d n : populated (newArchitecture d n)
| populated_add p its a a' :
    populated a -> addImageTypes p its a = Go.Ok a' -> populated a'.

(** Every alias names a registered image type. *)
Definition aliasesResolve (a : architecture) : Prop :=
  forall alias canon,
    imageTypeAliases a !! alias = Some canon ->
    is_Some (imageTypes a !! canon).

End scos.

(** ** Imported packages, as interfaces

    The code of the packages [blueprint], [disk], [common], [oscap],
    [manifest], [osbuild] and [distro] is not part of the sources: what the
    image type calls in them is a method of a class, and the structs whose
    fields the image type reads are records with these fields. *)

Module blueprint.

Record FilesystemCustomization := {
  Mountpoint : string;
  MinSize : Z
}.

Record KernelCustomization := {
  KernelName : string;
  KernelAppend : string
}.

Record FDOCustomization := {
  ManufacturingServerURL : string;
  DiunPubKeyInsecure : string;
  DiunPubKeyHash : string;
  DiunPubKeyRootCerts : string
}.

Record OpenSCAPCustomization := {
  DataStream : string;
  ProfileID : string
}.

Record ServicesCustomization := {
  Enabled : list string;
  Disabled : list string
}.

Record Container := {
  Source : string;
  ContainerName : string;
  TLSVerify : option bool
}.

(** [Customizations] is the pointer [*blueprint.Customizations], nil
    included; every accessor is a method with a pointer receiver.  A slice
    that the code compares with nil is an [option]: [None] is the nil
    slice, [Some []] an empty one. *)
Class API := {
  Customizations : Type;
  nilCustomizations : Customizations;
  Packages : Type;
  CheckAllowed : Customizations -> list string -> option string;
  GetInstallationDevice : Customizations -> string;
  GetFDO : Customizations -> option FDOCustomization;
  GetKernel : Customizations -> KernelCustomization;
  GetFilesystems :
    Customizations -> option (list FilesystemCustomization);
  GetOpenSCAP : Customizations -> option OpenSCAPCustomization;
  GetTimezoneSettings : Customizations -> option string * list string;
  GetServices : Customizations -> option ServicesCustomization
}.

(** The [Blueprint] struct: [Payload] stands for its package, module and
    group lists, which only [GetPackages] and [GetPackagesEx] read. *)
Record Blueprint `{API} := {
  Name : string;
  Payload : Packages;
  Containers : list Container;
  Customs : Customizations
}.

Class Methods `{API} := {
  emptyPayload : Packages;
  GetPackages : Blueprint -> list string;
  GetPackagesEx : Blueprint -> bool -> list string;
  Initialize : Blueprint -> option string * Blueprint
}.

End blueprint.

Module container.

Record Spec := {
  Source : string;
  TLSVerify : option bool;
  LocalName : string
}.

End container.

Module ostree.

Record CommitSpec := {
  Checksum : string;
  URL : string;
  ContentURL : string;
  Secrets : string
}.

End ostree.

Module distro.

Record OSTreeImageOptions := {
  ImageRef : string;
  FetchChecksum : string;
  URL : string;
  ContentURL : string;
  RHSM : bool
}.

Record ImageOptions := {
  Size : Z;
  OSTree : OSTreeImageOptions
}.

End distro.

Module disk.

(** [Rand] is the state of the [*rand.Rand] that the builders draw from:
    a call that uses it returns the state it leaves. *)
Class API := {
  PartitionTable : Type;
  zeroPartitionTable : PartitionTable;
  Rand : Type;
  NewRand : Z -> Rand;
  ContainsMountpoint : PartitionTable -> string -> bool;
  NewPartitionTable :
    PartitionTable -> option (list blueprint.FilesystemCustomization) ->
    Z -> bool -> Rand -> Rand * (string + PartitionTable)
}.

(** [disk.MountpointPolicies] and [disk.CheckMountpoints]. *)
Class Policy := {
  PathPolicies : Type;
  MountpointPolicies : PathPolicies;
  CheckMountpoints :
    option (list blueprint.FilesystemCustomization) -> PathPolicies ->
    option string
}.

End disk.

Module osbuild.

(** [osbuild.Manifest], the value handed to [json.Marshal]. *)
Record Manifest (Pipeline Sources : Type) := {
  Version : string;
  Pipelines : list Pipeline;
  ManifestSources : Sources
}.
Arguments Version {Pipeline Sources} m.
Arguments Pipelines {Pipeline Sources} m.
Arguments ManifestSources {Pipeline Sources} m.

End osbuild.

Module common.

(** Modelled from the spec: [common.MebiByte], a constant of the [common]
    package, which is not among the sources; the specification rounds to
    the whole mebibyte, 1 MiB being 2^20 bytes. *)
Definition MebiByte : Z := 1048576.

(** The values of a [uint64]. *)
Definition uint64_modulus : Z := 2 ^ 64.
Definition is_uint64 (n : Z) : Prop := (0 <= n < uint64_modulus)%Z.
Definition wrap64 (n : Z) : Z := (n mod uint64_modulus)%Z.

End common.

(** ** Package [rhel8]: the image type *)

Module rhel8.

Definition buildPkgsKey := "build".
Definition osPkgsKey := "packages".
Definition containerPkgsKey := "container".
Definition installerPkgsKey := "installer".
Definition blueprintPkgsKey := "blueprint".

(** [workload.Custom] with its embedded [BaseWorkload]. *)
Record Workload := {
  Repos : list rpmmd.RepoConfig;
  WorkloadPackages : list string;
  Services : list string;
  DisabledServices : list string
}.

(** What the image type calls in [manifest], [image], [osbuild], [oscap],
    [common], [distro], [fmt] and [encoding/json], and the methods of the
    package's own [distribution] that are in another file. *)
Class Imports `{blueprint.API} `{disk.API} := {
  PackageSpec : Type;
  Pipeline : Type;
  Sources : Type;
  Bytes : Type;
  Runner : Type;
  ImageKind : Type;
  ManifestBuilder : Type;
  Profile : Type;
  oscapProfileAllowList : list Profile;
  IsProfileAllowed : string -> list Profile -> bool;
  VersionLessThan : string -> string -> bool;
  Sprintf : string -> string -> string;
  GenSources :
    list PackageSpec -> list ostree.CommitSpec -> list string ->
    list container.Spec -> Sources;
  Marshal : osbuild.Manifest Pipeline Sources -> string + Bytes;
  manifestNew : ManifestBuilder;
  InstantiateManifest :
    ImageKind -> ManifestBuilder -> list rpmmd.RepoConfig -> Runner ->
    disk.Rand -> disk.Rand * (ManifestBuilder * option string);
  GetPackageSetChains :
    option ManifestBuilder ->
    string + gmap string (list rpmmd.PackageSet);
  Serialize :
    option ManifestBuilder -> list (string * list PackageSpec) ->
    Go.outcome string string Bytes;
  MakePackageSetChains :
    string -> gmap string (list string) ->
    gmap string rpmmd.PackageSet -> list rpmmd.RepoConfig ->
    string + gmap string (list rpmmd.PackageSet)
}.

Section ImageType.

Context `{BA : blueprint.API} `{BM : !blueprint.Methods}
        `{DA : disk.API} `{IM : !Imports}.

(** The [distribution] and [architecture] of the package, by the fields
    that the image type reads. *)
Record distribution := {
  distroName : string;
  osVersion : string;
  ostreeRefTmpl : string;
  runner : Runner;
  isRHEL : bool
}.

Record architecture := {
  distro : distribution;
  archName : string
}.

(** A function-valued field is called with the image type itself as
    [t]: it is kept closed over this receiver, and a nil function is
    [None]. *)
Definition pipelinesFunc : Type :=
  blueprint.Customizations -> distro.ImageOptions ->
  list rpmmd.RepoConfig -> list (string * list PackageSpec) ->
  list container.Spec -> disk.Rand ->
  disk.Rand * (string + list Pipeline).

Definition imageFunc : Type :=
  Workload -> blueprint.Customizations -> distro.ImageOptions ->
  gmap string rpmmd.PackageSet -> list container.Spec -> disk.Rand ->
  disk.Rand * (string + ImageKind).

Record imageType := {
  arch : architecture;
  name : string;
  nameAliases : list string;
  filename : string;
  mimeType : string;
  packageSets : gmap string (option rpmmd.PackageSet);
  packageSetChains : gmap string (list string);
  kernelOptions : string;
  defaultSize : Z;
  buildPipelines : list string;
  payloadPipelines : list string;
  exports : list string;
  pipelines : option pipelinesFunc;
  image : option imageFunc;
  bootISO : bool;
  rpmOstree : bool;
  bootable : bool;
  basePartitionTables : gmap string disk.PartitionTable
}.

(** The errors that the image type builds with [fmt.Errorf], one
    constructor for each format string, and [Foreign] for an error
    returned by an imported function. *)
Inductive error :=
| EmbeddingContainersUnsupported (typeName distroName : string)
| BootISORequiresURL (typeName : string)
| UnsupportedCustomizations (typeName : string) (allowed : list string)
| RequiresInstallationDevice (typeName : string)
| RequiresManufacturingServerURL (typeName : string)
| RequiresOneDiunPubKey (typeName : string)
| EdgeRawRequiresURL
| KernelAppendOnOSTree
| MountpointsOnOSTree
| OpenSCAPUnsupportedVersion (osVersion : string)
| OpenSCAPUnsupportedProfile (profile : string)
| OpenSCAPOnOSTree
| OpenSCAPEmptyDatastream
| OpenSCAPEmptyProfile
| UnknownArch (archName : string)
| Foreign (message : string).

Inductive panicValue :=
| NoBuildPackageSet (typeName key : string)
| CouldNotInitializeBlueprint (message : string)
| NilFunctionCall
| ForeignPanic (message : string).

Definition result := Go.outcome error panicValue.

Definition Name (t : imageType) : string := name t.

Definition OSTreeRef (t : imageType) : string :=
  let d := distro (arch t) in
  if rpmOstree t then Sprintf (ostreeRefTmpl d) (archName (arch t))
  else "".

(** [size] is a [uint64]: the product wraps around. *)
Definition Size (t : imageType) (size : Z) : Z :=
  let size :=
    if String.eqb (name t) "vhd"
       && negb (size mod common.MebiByte =? 0)%Z
    then common.wrap64 ((size / common.MebiByte + 1) * common.MebiByte)
    else size in
  if (size =? 0)%Z then defaultSize t else size.

Definition getPackages (t : imageType) (n : string) : rpmmd.PackageSet :=
  match packageSets t !! n with
  | Some (Some set) => set
  | _ => rpmmd.empty
  end.


(** *** [checkOptions]

    Every [if ... { return fmt.Errorf(...) }] of the function is one
    rule; the function returns the first error in their order. *)

Fixpoint firstError (rules : list (option error)) : option error :=
  match rules with
  | [] => None
  | Some e :: _ => Some e
  | None :: rest => firstError rest
  end.

Definition nonEmpty (s : string) : bool := negb (String.eqb s "").

Definition containersRule (t : imageType)
    (containers : list container.Spec) : option error :=
  if bool_decide (0 < length containers) && rpmOstree t
     && (negb (String.eqb (name t) "edge-commit")
         && negb (String.eqb (name t) "edge-container"))
  then Some (EmbeddingContainersUnsupported (name t)
               (distroName (distro (arch t))))
  else None.

(** The count [diunSet] of the trust anchors that are set. *)
Definition diunSet (fdo : blueprint.FDOCustomization) : nat :=
  (if nonEmpty (blueprint.DiunPubKeyHash fdo) then 1 else 0)
  + (if nonEmpty (blueprint.DiunPubKeyInsecure fdo) then 1 else 0)
  + (if nonEmpty (blueprint.DiunPubKeyRootCerts fdo) then 1 else 0).

(** Exactly one of the three trust anchors is set. *)
Definition exactlyOneDiun (fdo : blueprint.FDOCustomization) : Prop :=
  let hash := blueprint.DiunPubKeyHash fdo in
  let insecure := blueprint.DiunPubKeyInsecure fdo in
  let rootCerts := blueprint.DiunPubKeyRootCerts fdo in
  (hash <> "" /\ insecure = "" /\ rootCerts = "")
  \/ (hash = "" /\ insecure <> "" /\ rootCerts = "")
  \/ (hash = "" /\ insecure = "" /\ rootCerts <> "").

Definition simplifiedInstallerRule (t : imageType)
    (customizations : blueprint.Customizations) : option error :=
  let allowed := ["InstallationDevice"; "FDO"] in
  match blueprint.CheckAllowed customizations allowed with
  | Some _ => Some (UnsupportedCustomizations (name t) allowed)
  | None =>
      if String.eqb (blueprint.GetInstallationDevice customizations) ""
      then Some (RequiresInstallationDevice (name t))
      else
        match blueprint.GetFDO customizations with
        | None => None
        | Some fdo =>
            if String.eqb (blueprint.ManufacturingServerURL fdo) ""
            then Some (RequiresManufacturingServerURL (name t))
            else if negb (diunSet fdo =? 1)%nat
            then Some (RequiresOneDiunPubKey (name t))
            else None
        end
  end.

Definition installerRule (t : imageType)
    (customizations : blueprint.Customizations) : option error :=
  let allowed := ["User"; "Group"] in
  match blueprint.CheckAllowed customizations allowed with
  | Some _ => Some (UnsupportedCustomizations (name t) allowed)
  | None => None
  end.

Definition bootISORule (t : imageType)
    (customizations : blueprint.Customizations)
    (options : distro.ImageOptions) : option error :=
  if bootISO t && rpmOstree t then
    if String.eqb (distro.FetchChecksum (distro.OSTree options)) ""
    then Some (BootISORequiresURL (name t))
    else if String.eqb (name t) "edge-simplified-installer"
    then simplifiedInstallerRule t customizations
    else if String.eqb (name t) "edge-installer"
    then installerRule t customizations
    else None
  else None.

Definition rawImageRule (t : imageType) (options : distro.ImageOptions)
  : option error :=
  if String.eqb (name t) "edge-raw-image"
     && String.eqb (distro.FetchChecksum (distro.OSTree options)) ""
  then Some EdgeRawRequiresURL
  else None.

Definition kernelRule (t : imageType)
    (customizations : blueprint.Customizations) : option error :=
  let kernelOpts := blueprint.GetKernel customizations in
  if nonEmpty (blueprint.KernelAppend kernelOpts) && rpmOstree t
     && (negb (bootable t) || bootISO t)
  then Some KernelAppendOnOSTree
  else None.

Definition ostreeMountpointsRule (t : imageType)
    (mountpoints : option (list blueprint.FilesystemCustomization))
  : option error :=
  if bool_decide (is_Some mountpoints) && rpmOstree t
  then Some MountpointsOnOSTree
  else None.

Definition openSCAPRule (t : imageType)
    (customizations : blueprint.Customizations) : option error :=
  match blueprint.GetOpenSCAP customizations with
  | None => None
  | Some osc =>
      let d := distro (arch t) in
      if negb (isRHEL d) || VersionLessThan (osVersion d) "8.7"
      then Some (OpenSCAPUnsupportedVersion (osVersion d))
      else if negb (IsProfileAllowed (blueprint.ProfileID osc)
                      oscapProfileAllowList)
      then Some (OpenSCAPUnsupportedProfile (blueprint.ProfileID osc))
      else if rpmOstree t then Some OpenSCAPOnOSTree
      else if String.eqb (blueprint.DataStream osc) ""
      then Some OpenSCAPEmptyDatastream
      else if String.eqb (blueprint.ProfileID osc) ""
      then Some OpenSCAPEmptyProfile
      else None
  end.

Section Validator.

Context `{DP : disk.Policy}.

Definition mountpointPolicyRule
    (mountpoints : option (list blueprint.FilesystemCustomization))
  : option error :=
  match disk.CheckMountpoints mountpoints disk.MountpointPolicies with
  | Some e => Some (Foreign e)
  | None => None
  end.

Definition checkOptions (t : imageType)
    (customizations : blueprint.Customizations)
    (options : distro.ImageOptions)
    (containers : list container.Spec) : option error :=
  let mountpoints := blueprint.GetFilesystems customizations in
  firstError
    [ containersRule t containers;
      bootISORule t customizations options;
      rawImageRule t options;
      kernelRule t customizations;
      ostreeMountpointsRule t mountpoints;
      mountpointPolicyRule mountpoints;
      openSCAPRule t customizations ].

(** *** Manifest initialisation and the package sets *)

Definition initializeManifest (t : imageType)
    (bp : blueprint.Blueprint) (options : distro.ImageOptions)
    (repos : list rpmmd.RepoConfig)
    (packageSets : gmap string rpmmd.PackageSet)
    (containers : list container.Spec) (seed : Z)
  : result (option ManifestBuilder) :=
  match checkOptions t (blueprint.Customs bp) options containers with
  | Some err => Go.Err err
  | None =>
      let services := blueprint.GetServices (blueprint.Customs bp) in
      let w :=
        {| Repos :=
             rpmmd.Repositories
               (default rpmmd.empty (packageSets !! blueprintPkgsKey));
           WorkloadPackages := blueprint.GetPackagesEx bp false;
           Services :=
             from_option blueprint.Enabled [] services;
           DisabledServices :=
             from_option blueprint.Disabled [] services |} in
      let rng := disk.NewRand seed in
      match image t with
      | None => Go.Ok None
      | Some imageFn =>
          let '(rng, r) :=
            imageFn w (blueprint.Customs bp) options packageSets
              containers rng in
          match r with
          | inl err => Go.Err (Foreign err)
          | inr img =>
              let '(_, (m, err)) :=
                InstantiateManifest img manifestNew repos
                  (runner (distro (arch t))) rng in
              match err with
              | Some err => Go.Err (Foreign err)
              | None => Go.Ok (Some m)
              end
          end
      end
  end.

Definition liftForeign {A} (r : Go.outcome string string A)
  : result A :=
  match r with
  | Go.Ok a => Go.Ok a
  | Go.Err e => Go.Err (Foreign e)
  | Go.Panic p => Go.Panic (ForeignPanic p)
  end.

Definition ManifestNew (t : imageType)
    (customizations : blueprint.Customizations)
    (options : distro.ImageOptions) (repos : list rpmmd.RepoConfig)
    (packageSets : list (string * list PackageSpec))
    (containers : list container.Spec) (seed : Z) : result Bytes :=
  let bp :=
    {| blueprint.Name := "empty blueprint";
       blueprint.Payload := blueprint.emptyPayload;
       blueprint.Containers := [];
       blueprint.Customs := blueprint.nilCustomizations |} in
  match blueprint.Initialize bp with
  | (Some err, _) => Go.Panic (CouldNotInitializeBlueprint err)
  | (None, bp) =>
      let bp :=
        {| blueprint.Name := blueprint.Name bp;
           blueprint.Payload := blueprint.Payload bp;
           blueprint.Containers := blueprint.Containers bp;
           blueprint.Customs := customizations |} in
      manifest ← initializeManifest t bp options repos ∅ containers
                   seed;
      liftForeign (Serialize manifest packageSets)
  end.

(** One round of the loop over [repos] in [PackageSetsNew]. *)
Definition attachRepo
    (acc : gmap string rpmmd.PackageSet * list rpmmd.RepoConfig)
    (repo : rpmmd.RepoConfig)
  : gmap string rpmmd.PackageSet * list rpmmd.RepoConfig :=
  let '(packageSets, globalRepos) := acc in
  if bool_decide (0 < length (rpmmd.RepoPackageSets repo)) then
    (fold_left
       (fun sets psName =>
          let ps := default rpmmd.empty (sets !! psName) in
          <[ psName :=
               {| rpmmd.Include := rpmmd.Include ps;
                  rpmmd.Exclude := rpmmd.Exclude ps;
                  rpmmd.Repositories :=
                    rpmmd.Repositories ps ++ [repo] |} ]> sets)
       (rpmmd.RepoPackageSets repo) packageSets,
     globalRepos)
  else (packageSets, globalRepos ++ [repo]).

(** The copies of the repositories that the loop appends to the set [k]:
    one for each time that a repository names [k]. *)
Definition attachedTo (k : string) (repos : list rpmmd.RepoConfig)
  : list rpmmd.RepoConfig :=
  repos ≫= fun repo =>
    replicate (length (filter (eq k) (rpmmd.RepoPackageSets repo))) repo.

Definition fakeChecksum : string :=
  "ffffffffffffffffffffffffffffffffffffffffffffffffffffffffffffffff".

(** The options that [PackageSetsNew] hands on: a dummy checksum
    for an OSTree installer that has none, and the reference of the
    image type. *)
Definition manifestOptions (t : imageType)
    (options : distro.ImageOptions) : distro.ImageOptions :=
  let o := distro.OSTree options in
  let checksum :=
    if rpmOstree t && bootISO t
       && String.eqb (distro.FetchChecksum o) ""
    then fakeChecksum else distro.FetchChecksum o in
  {| distro.Size := distro.Size options;
     distro.OSTree :=
       {| distro.ImageRef := OSTreeRef t;
          distro.FetchChecksum := checksum;
          distro.URL := distro.URL o;
          distro.ContentURL := distro.ContentURL o;
          distro.RHSM := distro.RHSM o |} |}.

(** The container specs made from the containers of the blueprint. *)
Definition blueprintContainers (bp : blueprint.Blueprint)
  : list container.Spec :=
  map (fun c =>
         {| container.Source := blueprint.Source c;
            container.TLSVerify := blueprint.TLSVerify c;
            container.LocalName := blueprint.ContainerName c |})
      (blueprint.Containers bp).

Definition PackageSetsNew (t : imageType) (bp : blueprint.Blueprint)
    (options : distro.ImageOptions) (repos : list rpmmd.RepoConfig)
  : result (gmap string (list rpmmd.PackageSet)) :=
  if bool_decide (map_Forall (fun _ getter => is_Some getter)
                    (packageSets t))
  then
    let packageSets := default rpmmd.empty <$> packageSets t in
    let '(packageSets, globalRepos) :=
      fold_left attachRepo repos (packageSets, []) in
    let options := manifestOptions t options in
    let containers := blueprintContainers bp in
    match initializeManifest t bp options globalRepos packageSets
            containers 0 with
    | Go.Err _ => Go.Ok ∅
    | Go.Panic p => Go.Panic p
    | Go.Ok manifest =>
        match GetPackageSetChains manifest with
        | inl p => Go.Panic (ForeignPanic p)
        | inr chains => Go.Ok chains
        end
    end
  else Go.Panic NilFunctionCall.

(** The loop that looks for a mountpoint which the base partition
    table does not have. *)
Fixpoint newMountpointLoop (pt : disk.PartitionTable)
    (fs : list blueprint.FilesystemCustomization)
    (haveNewMountpoint : bool) : bool :=
  if haveNewMountpoint then true
  else
    match fs with
    | [] => haveNewMountpoint
    | f :: rest =>
        newMountpointLoop pt rest
          (negb (disk.ContainsMountpoint pt (blueprint.Mountpoint f)))
    end.

Definition haveNewMountpoint (t : imageType)
    (bp : blueprint.Blueprint) : bool :=
  let pt :=
    default disk.zeroPartitionTable
      (basePartitionTables t !! archName (arch t)) in
  match blueprint.GetFilesystems (blueprint.Customs bp) with
  | Some fs => newMountpointLoop pt fs false
  | None => false
  end.

(** The value of [bpPackages] when the blueprint set is built. *)
Definition blueprintPackages (t : imageType)
    (bp : blueprint.Blueprint) : list string :=
  let bpPackages := blueprint.GetPackages bp in
  let bpPackages :=
    match fst (blueprint.GetTimezoneSettings (blueprint.Customs bp))
    with
    | Some _ => bpPackages ++ ["chrony"]
    | None => bpPackages
    end in
  let bpPackages :=
    if negb (rpmOstree t) then
      if haveNewMountpoint t bp then bpPackages ++ ["lvm2"]
      else bpPackages
    else bpPackages in
  match blueprint.GetOpenSCAP (blueprint.Customs bp) with
  | Some _ => bpPackages ++ ["openscap-scanner"; "scap-security-guide"]
  | None => bpPackages
  end.

Definition includeOnly (pkgs : list string) : rpmmd.PackageSet :=
  {| rpmmd.Include := pkgs; rpmmd.Exclude := [];
     rpmmd.Repositories := [] |}.



(** The packages that the resolution appends to the set [k] of the image
    type, the blueprint set apart. *)
Definition appended (t : imageType) (bp : blueprint.Blueprint)
    (k : string) : list string :=
  (if bool_decide (k = buildPkgsKey)
      && bool_decide (0 < length (blueprint.Containers bp))
   then if rpmOstree t then ["skopeo"; "python3-pytoml"] else ["skopeo"]
   else [])
  ++ (if bool_decide (k = osPkgsKey)
      then [blueprint.KernelName
              (blueprint.GetKernel (blueprint.Customs bp))]
      else []).

(** The body of the older path of [PackageSets], up to the map
    [mergedSets] that it hands to [distro.MakePackageSetChains]. *)
Definition mergedPackageSets (t : imageType)
    (bp : blueprint.Blueprint)
  : result (gmap string rpmmd.PackageSet) :=
  let imageSets := packageSets t in
  let mergedSets := default rpmmd.empty <$> imageSets in
  let mergedSets :=
    if bool_decide (is_Some (imageSets !! osPkgsKey)) then mergedSets
    else <[ osPkgsKey := rpmmd.empty ]> mergedSets in
  if bool_decide (is_Some (imageSets !! buildPkgsKey)) then
    let mergedSets :=
      if bool_decide (0 < length (blueprint.Containers bp)) then
        let extraPkgs := includeOnly ["skopeo"] in
        let extraPkgs :=
          if rpmOstree t
          then rpmmd.Append extraPkgs (includeOnly ["python3-pytoml"])
          else extraPkgs in
        <[ buildPkgsKey :=
             rpmmd.Append
               (default rpmmd.empty (mergedSets !! buildPkgsKey))
               extraPkgs ]> mergedSets
      else mergedSets in
    let mergedSets :=
      <[ blueprintPkgsKey := includeOnly (blueprintPackages t bp) ]>
        mergedSets in
    let kernel :=
      blueprint.KernelName
        (blueprint.GetKernel (blueprint.Customs bp)) in
    Go.Ok
      (<[ osPkgsKey :=
            rpmmd.Append
              (default rpmmd.empty (mergedSets !! osPkgsKey))
              (includeOnly [kernel]) ]> mergedSets)
  else Go.Panic (NoBuildPackageSet (name t) buildPkgsKey).

Definition PackageSets (t : imageType) (bp : blueprint.Blueprint)
    (options : distro.ImageOptions) (repos : list rpmmd.RepoConfig)
  : result (gmap string (list rpmmd.PackageSet)) :=
  match image t with
  | Some _ => PackageSetsNew t bp options repos
  | None =>
      mergedSets ← mergedPackageSets t bp;
      match MakePackageSetChains (Name t) (packageSetChains t)
              mergedSets repos with
      | inl p => Go.Panic (ForeignPanic p)
      | inr chains => Go.Ok chains
      end
  end.

(** *** [Manifest] *)

(** The value of [commits] after the block on the OSTree inputs. *)
Definition commitSources (options : distro.ImageOptions)
  : list ostree.CommitSpec :=
  let o := distro.OSTree options in
  if nonEmpty (distro.FetchChecksum o) && nonEmpty (distro.URL o) then
    [ {| ostree.Checksum := distro.FetchChecksum o;
         ostree.URL := distro.URL o;
         ostree.ContentURL := distro.ContentURL o;
         ostree.Secrets :=
           if distro.RHSM o then "org.osbuild.rhsm.consumer"
           else "" |} ]
  else [].

Definition inlineSources (customizations : blueprint.Customizations)
  : list string :=
  match blueprint.GetFDO customizations with
  | Some fdo =>
      if nonEmpty (blueprint.DiunPubKeyRootCerts fdo)
      then [blueprint.DiunPubKeyRootCerts fdo] else []
  | None => []
  end.

(** The loop that flattens the package specs, over the entries of
    the map in the order of the visit. *)
Definition flattenSpecs
    (packageSpecSets : list (string * list PackageSpec))
  : list PackageSpec :=
  fold_left (fun all entry => all ++ snd entry) packageSpecSets [].

Definition Manifest (t : imageType)
    (customizations : blueprint.Customizations)
    (options : distro.ImageOptions) (repos : list rpmmd.RepoConfig)
    (packageSpecSets : list (string * list PackageSpec))
    (containers : list container.Spec) (seed : Z) : result Bytes :=
  match image t with
  | Some _ =>
      ManifestNew t customizations options repos packageSpecSets
        containers seed
  | None =>
      match checkOptions t customizations options containers with
      | Some err => Go.Err err
      | None =>
          let rng := disk.NewRand seed in
          match pipelines t with
          | None => Go.Panic NilFunctionCall
          | Some build =>
              match build customizations options repos
                      packageSpecSets containers rng with
              | (_, inl err) => Go.Err (Foreign err)
              | (_, inr pipelines) =>
                  let allPackageSpecs :=
                    flattenSpecs packageSpecSets in
                  let commits := commitSources options in
                  let inlineData := inlineSources customizations in
                  match
                    Marshal
                      {| osbuild.Version := "2";
                         osbuild.Pipelines := pipelines;
                         osbuild.ManifestSources :=
                           GenSources allPackageSpecs commits
                             inlineData containers |}
                  with
                  | inl err => Go.Err (Foreign err)
                  | inr bytes => Go.Ok bytes
                  end
              end
          end
      end
  end.

End Validator.

End ImageType.

End rhel8.

(** ** The depsolve job of the worker *)

Module worker.

(** [rpmmd.RPMMD]: the solver, as the function of its arguments that
    gives the error or the resolved specs of one package set. *)
Class RPMMD := {
  PackageSpec : Type;
  Depsolve :
    rpmmd.PackageSet -> list rpmmd.RepoConfig -> string -> string ->
    string -> string + list PackageSpec
}.

Section Job.

Context `{Solver : RPMMD}.

Record DepsolveJob := {
  PackageSets : gmap string rpmmd.PackageSet;
  Repos : list rpmmd.RepoConfig;
  ModulePlatformID : string;
  Arch : string;
  Releasever : string
}.

(** [PackageSpecs] is a map that may be nil: [None]. *)
Record DepsolveJobResult := {
  PackageSpecs : option (gmap string (list PackageSpec));
  Error : string
}.

(** [worker.Job]: [Args] decodes the arguments of the job, [Update]
    reports its result. *)
Record Job := {
  Args : string + DepsolveJob;
  Update : DepsolveJobResult -> option string
}.

Inductive runError :=
| ArgsError (message : string)
| ErrorReportingJobResult (message : string).

(** The loop of [depsolve] over the entries of [packageSets], in the
    order in which [range] visits them. *)
Fixpoint depsolveLoop (entries : list (string * rpmmd.PackageSet))
    (repos : list rpmmd.RepoConfig)
    (modulePlatformID arch releasever : string)
    (packageSpecs : gmap string (list PackageSpec))
  : string + gmap string (list PackageSpec) :=
  match entries with
  | [] => inr packageSpecs
  | (name, packageSet) :: rest =>
      match Depsolve packageSet repos modulePlatformID arch releasever
      with
      | inl err => inl err
      | inr packageSpec =>
          depsolveLoop rest repos modulePlatformID arch releasever
            (<[ name := packageSpec ]> packageSpecs)
      end
  end.

Section Visit.

(** The order in which the runtime visits a map. *)
Variable visit :
  gmap string rpmmd.PackageSet -> list (string * rpmmd.PackageSet).

Definition depsolve (packageSets : gmap string rpmmd.PackageSet)
    (repos : list rpmmd.RepoConfig)
    (modulePlatformID arch releasever : string)
  : string + gmap string (list PackageSpec) :=
  depsolveLoop (visit packageSets) repos modulePlatformID arch
    releasever ∅.

(** [Run] gives the error it returns and the result it has handed to
    [job.Update], if it got that far. *)
Definition Run (job : Job)
  : option runError * option DepsolveJobResult :=
  match Args job with
  | inl err => (Some (ArgsError err), None)
  | inr args =>
      let result :=
        match depsolve (PackageSets args) (Repos args)
                (ModulePlatformID args) (Arch args) (Releasever args)
        with
        | inl err => {| PackageSpecs := None; Error := err |}
        | inr specs => {| PackageSpecs := Some specs; Error := "" |}
        end in
      match Update job result with
      | Some err => (Some (ErrorReportingJobResult err), Some result)
      | None => (None, Some result)
      end
  end.

End Visit.

End Job.

End worker.

(** ** A small implementation of the interfaces

    It is not taken from the sources: it makes the model run on concrete
    requests. *)

Module sample.

Record customizations := {
  InstallationDevice : string;
  FDO : option blueprint.FDOCustomization;
  Kernel : option blueprint.KernelCustomization;
  Filesystem : option (list blueprint.FilesystemCustomization);
  OpenSCAP : option blueprint.OpenSCAPCustomization;
  Timezone : option string
}.

(** The names of the fields that are set. *)
Definition fieldsSet (c : customizations) : list string :=
  (if String.eqb (InstallationDevice c) "" then []
   else ["InstallationDevice"])
  ++ (if FDO c is Some _ then ["FDO"] else [])
  ++ (if Kernel c is Some _ then ["Kernel"] else [])
  ++ (match Filesystem c with
      | Some (_ :: _) => ["Filesystem"]
      | _ => []
      end)
  ++ (if OpenSCAP c is Some _ then ["OpenSCAP"] else [])
  ++ (if Timezone c is Some _ then ["Timezone"] else []).

Definition checkAllowed (c : option customizations)
    (allowed : list string) : option string :=
  match c with
  | None => None
  | Some c =>
      match filter (fun f => f ∉ allowed) (fieldsSet c) with
      | [] => None
      | f :: _ => Some (f +:+ " is not allowed")
      end
  end.

Definition getKernel (c : option customizations)
  : blueprint.KernelCustomization :=
  match c ≫= Kernel with
  | Some k =>
      {| blueprint.KernelName :=
           if String.eqb (blueprint.KernelName k) "" then "kernel"
           else blueprint.KernelName k;
         blueprint.KernelAppend := blueprint.KernelAppend k |}
  | None =>
      {| blueprint.KernelName := "kernel"; blueprint.KernelAppend := "" |}
  end.

Definition blueprintAPI : blueprint.API :=
  {| blueprint.Customizations := option customizations;
     blueprint.nilCustomizations := None;
     blueprint.Packages := list string;
     blueprint.CheckAllowed := checkAllowed;
     blueprint.GetInstallationDevice :=
       fun c => from_option InstallationDevice "" c;
     blueprint.GetFDO := fun c => c ≫= FDO;
     blueprint.GetKernel := getKernel;
     blueprint.GetFilesystems := fun c => c ≫= Filesystem;
     blueprint.GetOpenSCAP := fun c => c ≫= OpenSCAP;
     blueprint.GetTimezoneSettings := fun c => (c ≫= Timezone, []);
     blueprint.GetServices := fun _ => None |}.

Definition blueprintMethods : @blueprint.Methods blueprintAPI :=
  {| blueprint.emptyPayload := [] : @blueprint.Packages blueprintAPI;
     blueprint.GetPackages :=
       fun bp => @blueprint.Payload blueprintAPI bp;
     blueprint.GetPackagesEx :=
       fun bp _ => @blueprint.Payload blueprintAPI bp;
     blueprint.Initialize := fun bp => (None, bp) |}.

Record partitionTable := {
  mounts : list string;
  tableSize : Z;
  lvm : bool
}.

Definition diskAPI : disk.API :=
  {| disk.PartitionTable := partitionTable;
     disk.zeroPartitionTable :=
       {| mounts := []; tableSize := 0; lvm := false |};
     disk.Rand := Z;
     disk.NewRand := fun seed => seed;
     disk.ContainsMountpoint :=
       fun pt m => bool_decide (m ∈ mounts pt);
     disk.NewPartitionTable :=
       fun base mountpoints size lvmify rng =>
         ((rng + 1)%Z,
          inr {| mounts :=
                   mounts base
                   ++ map blueprint.Mountpoint (default [] mountpoints);
                 tableSize := size;
                 lvm := lvmify |}) |}.

(** A policy is the list of the mountpoints that it allows. *)
Definition policy (allowed : list string) : disk.Policy :=
  {| disk.PathPolicies := list string;
     disk.MountpointPolicies := allowed;
     disk.CheckMountpoints :=
       fun mountpoints allowed =>
         match filter (fun f => blueprint.Mountpoint f ∉ allowed)
                 (default [] mountpoints) with
         | [] => None
         | f :: _ =>
             Some ("path not allowed: " +:+ blueprint.Mountpoint f)
         end |}.

Definition strict : disk.Policy := policy [].
Definition lenient : disk.Policy := policy ["/data"].

Record sources := {
  packages : list string;
  commits : list ostree.CommitSpec;
  inlineData : list string;
  containers : list container.Spec
}.

Definition imports : @rhel8.Imports blueprintAPI diskAPI :=
  {| rhel8.PackageSpec := string;
     rhel8.Pipeline := string;
     rhel8.Sources := sources;
     rhel8.Bytes := osbuild.Manifest string sources;
     rhel8.Runner := string;
     rhel8.ImageKind := string;
     rhel8.ManifestBuilder := list string;
     rhel8.Profile := string;
     rhel8.oscapProfileAllowList := ["ospp"; "pci-dss"; "standard"];
     rhel8.IsProfileAllowed :=
       fun p allowed => bool_decide (p ∈ allowed);
     rhel8.VersionLessThan := fun a b => String.ltb a b;
     rhel8.Sprintf := fun tmpl a => tmpl +:+ a;
     rhel8.GenSources :=
       fun specs commits inline containers =>
         {| packages := specs; commits := commits;
            inlineData := inline; containers := containers |};
     rhel8.Marshal := fun m => inr m;
     rhel8.manifestNew := [];
     rhel8.InstantiateManifest :=
       fun img m _ _ rng => (rng, (m ++ [img], None));
     rhel8.GetPackageSetChains :=
       fun m =>
         match m with
         | Some _ => inr ∅
         | None => inl "nil manifest"
         end;
     rhel8.Serialize :=
       fun m specs =>
         match m with
         | Some pipelines =>
             Go.Ok {| osbuild.Version := "2";
                      osbuild.Pipelines := pipelines;
                      osbuild.ManifestSources :=
                        {| packages := concat (map snd specs);
                           commits := []; inlineData := [];
                           containers := [] |} |}
         | None => Go.Panic "nil manifest"
         end;
     rhel8.MakePackageSetChains :=
       fun _ _ sets _ => inr ((fun set => [set]) <$> sets) |}.

(** A solver that fails on a package set that asks for ["missing"]. *)
Definition solver : worker.RPMMD :=
  {| worker.PackageSpec := string;
     worker.Depsolve :=
       fun set _ _ _ _ =>
         if bool_decide ("missing" ∈ rpmmd.Include set)
         then inl "no package missing"
         else inr (rpmmd.Include set) |}.

(** Image types and requests to run the model on. *)

#[local] Existing Instances blueprintAPI blueprintMethods diskAPI imports.

Definition rhel : rhel8.distribution :=
  {| rhel8.distroName := "rhel-88"; rhel8.osVersion := "8.8";
     rhel8.ostreeRefTmpl := "rhel/8/%s/edge"; rhel8.runner := "rhel88";
     rhel8.isRHEL := true |}.

Definition x86_64 : rhel8.architecture :=
  {| rhel8.distro := rhel; rhel8.archName := "x86_64" |}.

Definition basePartitionTable : partitionTable :=
  {| mounts := ["/"; "/boot"]; tableSize := 0; lvm := false |}.

Definition buildPipeline : rhel8.pipelinesFunc :=
  fun _ _ _ _ _ rng => (rng, inr ["build"; "os"]).

Definition buildImage : rhel8.imageFunc :=
  fun _ _ _ _ _ rng => (rng, inr "image").

Definition imgType (n : string) (ostree iso boots : bool)
    (sets : gmap string (option rpmmd.PackageSet))
    (image : option rhel8.imageFunc) : rhel8.imageType :=
  {| rhel8.arch := x86_64; rhel8.name := n; rhel8.nameAliases := [];
     rhel8.filename := "image"; rhel8.mimeType := "application/x-image";
     rhel8.packageSets := sets; rhel8.packageSetChains := ∅;
     rhel8.kernelOptions := ""; rhel8.defaultSize := 4294967296;
     rhel8.buildPipelines := ["build"]; rhel8.payloadPipelines := ["os"];
     rhel8.exports := [];
     rhel8.pipelines :=
       if image is Some _ then None else Some buildPipeline;
     rhel8.image := image;
     rhel8.bootISO := iso; rhel8.rpmOstree := ostree;
     rhel8.bootable := boots;
     rhel8.basePartitionTables := {[ "x86_64" := basePartitionTable ]} |}.

Definition declaredSets : gmap string (option rpmmd.PackageSet) :=
  <[ rhel8.buildPkgsKey :=
       Some {| rpmmd.Include := ["dnf"; "rpm"]; rpmmd.Exclude := [];
               rpmmd.Repositories := [] |} ]>
    {[ rhel8.osPkgsKey :=
         Some {| rpmmd.Include := ["bash"]; rpmmd.Exclude := [];
                 rpmmd.Repositories := [] |} ]}.

Definition vhdImgType := imgType "vhd" false false true declaredSets None.
Definition qcow2ImgType :=
  imgType "qcow2" false false true declaredSets None.
Definition edgeCommitImgType :=
  imgType "edge-commit" true false false declaredSets None.
Definition edgeAMIImgType :=
  imgType "edge-ami" true false true declaredSets None.
Definition simplifiedInstallerImgType :=
  imgType "edge-simplified-installer" true true true declaredSets None.
Definition edgeRawImgType :=
  imgType "edge-raw-image" true false true declaredSets (Some buildImage).

Definition noOSTree : distro.OSTreeImageOptions :=
  {| distro.ImageRef := ""; distro.FetchChecksum := ""; distro.URL := "";
     distro.ContentURL := ""; distro.RHSM := false |}.

Definition plainOptions : distro.ImageOptions :=
  {| distro.Size := 0; distro.OSTree := noOSTree |}.

Definition resolvedCommit : distro.OSTreeImageOptions :=
  {| distro.ImageRef := "rhel/8/x86_64/edge";
     distro.FetchChecksum := "c0ffee";
     distro.URL := "https://ostree.example.org/repo";
     distro.ContentURL := ""; distro.RHSM := true |}.

Definition commitOptions : distro.ImageOptions :=
  {| distro.Size := 0; distro.OSTree := resolvedCommit |}.

Definition noCustomizations : customizations :=
  {| InstallationDevice := ""; FDO := None; Kernel := None;
     Filesystem := None; OpenSCAP := None; Timezone := None |}.

Definition hashOnly : blueprint.FDOCustomization :=
  {| blueprint.ManufacturingServerURL := "https://fdo.example.org";
     blueprint.DiunPubKeyInsecure := "";
     blueprint.DiunPubKeyHash := "sha256:feed";
     blueprint.DiunPubKeyRootCerts := "" |}.

Definition hashAndInsecure : blueprint.FDOCustomization :=
  {| blueprint.ManufacturingServerURL := "https://fdo.example.org";
     blueprint.DiunPubKeyInsecure := "true";
     blueprint.DiunPubKeyHash := "sha256:feed";
     blueprint.DiunPubKeyRootCerts := "" |}.

Definition installerCustomizations (fdo : blueprint.FDOCustomization)
  : customizations :=
  {| InstallationDevice := "/dev/sda"; FDO := Some fdo; Kernel := None;
     Filesystem := None; OpenSCAP := None; Timezone := None |}.

Definition dataMountpoint : customizations :=
  {| InstallationDevice := ""; FDO := None; Kernel := None;
     Filesystem :=
       Some [ {| blueprint.Mountpoint := "/data";
                 blueprint.MinSize := 1073741824 |} ];
     OpenSCAP := None; Timezone := None |}.

Definition registry : container.Spec :=
  {| container.Source := "registry.example.org/app:latest";
     container.TLSVerify := None; container.LocalName := "app" |}.

Definition emptyBlueprint (c : option customizations)
  : blueprint.Blueprint :=
  {| blueprint.Name := "empty blueprint"; blueprint.Payload := [];
     blueprint.Containers := []; blueprint.Customs := c |}.

(** The requests of a depsolve job. *)
#[local] Existing Instance solver.

Definition goodSets : gmap string rpmmd.PackageSet :=
  <[ "build" := {| rpmmd.Include := ["dnf"]; rpmmd.Exclude := [];
                   rpmmd.Repositories := [] |} ]>
    {[ "packages" := {| rpmmd.Include := ["bash"; "kernel"];
                        rpmmd.Exclude := []; rpmmd.Repositories := [] |} ]}.

Definition badSets : gmap string rpmmd.PackageSet :=
  <[ "blueprint" := {| rpmmd.Include := ["missing"]; rpmmd.Exclude := [];
                       rpmmd.Repositories := [] |} ]> goodSets.

Definition job (sets : gmap string rpmmd.PackageSet) : worker.Job :=
  {| worker.Args :=
       inr {| worker.PackageSets := sets; worker.Repos := [];
              worker.ModulePlatformID := "platform:el8";
              worker.Arch := "x86_64"; worker.Releasever := "8" |};
     worker.Update := fun _ => None |}.

End sample.

(** * The catalogue: aliases and lookups *)

Section Catalogue.

Import scos.

Lemma addAliases_lookup itName aliases :
  forall table table',
    addAliases itName aliases table = Go.Ok table' ->
    forall alias canon,
      table' !! alias = Some canon ->
      table !! alias = Some canon \/ canon = itName.
Proof.
  induction aliases as [|al rest IH]; intros table table' Hadd alias canon.
  - simpl in Hadd. injection Hadd as <-. auto.
  - simpl in Hadd. destruct (table !! al) eqn:Hal; [discriminate|].
    intros Hlook. destruct (IH _ _ Hadd _ _ Hlook) as [Hin | ->]; [|auto].
    apply lookup_insert_Some in Hin as [[_ <-] | [_ Hold]]; auto.
Qed.

Lemma addImageTypes_resolve p its :
  forall a a',
    aliasesResolve a -> addImageTypes p its a = Go.Ok a' ->
    aliasesResolve a'.
Proof.
  induction its as [|it0 rest IH]; intros a a' Hinv Hadd.
  - simpl in Hadd. injection Hadd as <-. exact Hinv.
  - simpl in Hadd. unfold mbind, outcome_bind, Go.bind in Hadd.
    destruct (addAliases (name it0) (nameAliases it0) (imageTypeAliases a))
      as [table | |] eqn:Htable; try discriminate.
    refine (IH _ _ _ Hadd). intros alias canon Hlook. simpl in *.
    destruct (addAliases_lookup _ _ _ _ Htable _ _ Hlook) as [Hold | ->].
    + apply lookup_insert_is_Some'. right. eapply Hinv, Hold.
    + rewrite lookup_insert_eq. eauto.
Qed.

Lemma populated_resolve a : populated a -> aliasesResolve a.
Proof.
  induction 1 as [d n | p its a a' _ IH Hadd].
  - intros alias canon Hlook. simpl in Hlook.
    rewrite lookup_empty in Hlook. discriminate.
  - eapply addImageTypes_resolve; eauto.
Qed.

Lemma GetImageType_no_panic a :
  aliasesResolve a -> forall n, Go.panics (GetImageType a n) = false.
Proof.
  intros Hinv n. unfold GetImageType.
  destruct (imageTypes a !! n); [reflexivity|].
  destruct (imageTypeAliases a !! n) as [canon|] eqn:Halias;
    [|reflexivity].
  destruct (Hinv _ _ Halias) as [t ->]. reflexivity.
Qed.

(** C10.  Every architecture whose image-type map and alias map were
    filled through [addImageTypes] only sends each registered alias to a
    canonical name that is a key of the image-type map, and
    [GetImageType] panics on no name: its dangling-alias branch is never
    taken. *)
Theorem populated_aliases_never_dangle (a : architecture) :
  populated a ->
  aliasesResolve a /\ forall n, Go.panics (GetImageType a n) = false.
Proof.
  intros Hpop. pose proof (populated_resolve a Hpop) as Hinv.
  split; [exact Hinv | exact (GetImageType_no_panic a Hinv)].
Qed.

Lemma populated_aliases_never_dangle_rocky :
  match rockyX86 with
  | Go.Ok a =>
      aliasesResolve a
      /\ forall n, Go.panics (GetImageType a n) = false
  | _ => False
  end.
Proof.
  destruct rockyX86 as [a | e | p] eqn:Hrocky.
  - apply populated_aliases_never_dangle.
    exact (populated_add _ _ _ _ (populated_fresh _ _) Hrocky).
  - vm_compute in Hrocky. discriminate.
  - vm_compute in Hrocky. discriminate.
Defined.

(** C3, as amended.  In an architecture filled through [addImageTypes],
    an alias that is not itself the canonical name of a registered image
    type gives, through [GetImageType], the very image type that its
    canonical name gives; and in any architecture a name that is neither
    a key of the image-type map nor a registered alias gives the
    [InvalidImageType] error, without a panic. *)
Theorem GetImageType_alias_and_unknown (a : architecture) :
  (populated a ->
   forall alias canon,
     imageTypeAliases a !! alias = Some canon ->
     imageTypes a !! alias = None ->
     exists t,
       GetImageType a alias = Go.Ok t /\ GetImageType a canon = Go.Ok t)
  /\ (forall n,
        imageTypes a !! n = None -> imageTypeAliases a !! n = None ->
        GetImageType a n = Go.Err (InvalidImageType n)).
Proof.
  split.
  - intros Hpop alias canon Halias Hfree.
    destruct (populated_resolve a Hpop _ _ Halias) as [t Ht].
    exists t. unfold GetImageType. rewrite Hfree, Halias, Ht. auto.
  - intros n Htype Halias. unfold GetImageType.
    rewrite Htype, Halias. reflexivity.
Qed.

Lemma GetImageType_alias_and_unknown_rocky :
  match rockyX86 with
  | Go.Ok a =>
      (exists t,
         GetImageType a "scos-rocky-commit" = Go.Ok t
         /\ GetImageType a "ostree-commit" = Go.Ok t)
      /\ GetImageType a "qcow2" = Go.Err (InvalidImageType "qcow2")
  | _ => False
  end.
Proof.
  destruct rockyX86 as [a | e | p] eqn:Hrocky.
  - pose proof (populated_add _ _ _ _ (populated_fresh _ _) Hrocky)
      as Hpop.
    destruct (GetImageType_alias_and_unknown a) as [Halias Hunknown].
    vm_compute in Hrocky. injection Hrocky as <-.
    split.
    + apply (Halias Hpop); vm_compute; reflexivity.
    + apply Hunknown; vm_compute; reflexivity.
  - vm_compute in Hrocky. discriminate.
  - vm_compute in Hrocky. discriminate.
Defined.

(** C3 as stated fails when an alias is also the canonical name of
    another image type: the image-type map is read first.  Here the
    commit type is registered with the alias ["ostree-container"], next
    to the container type of that name. *)
Lemma alias_shadowed_by_canonical_name :
  match
    addImageTypes (X86 true "smartx")
      [aliasedCommitImgType; scosRockyOCIImgType]
      (newArchitecture (getDistro "rocky" 8) ARCH_X86_64)
  with
  | Go.Ok a =>
      populated a
      /\ imageTypeAliases a !! "ostree-container" = Some "ostree-commit"
      /\ (name <$> imageTypes a !! "ostree-commit") = Some "ostree-commit"
      /\ Go.panics (GetImageType a "ostree-container") = false
      /\ GetImageType a "ostree-container"
         <> GetImageType a "ostree-commit"
  | _ => False
  end.
Proof.
  destruct (addImageTypes _ _ _) as [a | e | p] eqn:Hadd.
  - pose proof (populated_add _ _ _ _ (populated_fresh _ _) Hadd)
      as Hpop.
    vm_compute in Hadd. injection Hadd as <-.
    split; [exact Hpop|].
    repeat split; try (vm_compute; reflexivity).
    vm_compute. discriminate.
  - vm_compute in Hadd. discriminate.
  - vm_compute in Hadd. discriminate.
Qed.

End Catalogue.

(** * The image type of [rhel8] *)

Section ImageSize.

Context `{BA : blueprint.API} `{DA : disk.API} `{IM : !rhel8.Imports}.
Import rhel8.

Lemma Size_zero (t : imageType) : Size t 0 = defaultSize t.
Proof.
  unfold Size. rewrite Z.mod_0_l by (unfold common.MebiByte; lia).
  simpl. rewrite andb_false_r. reflexivity.
Qed.

Lemma Size_other (t : imageType) (size : Z) :
  name t <> "vhd" -> size <> 0%Z -> Size t size = size.
Proof.
  intros Hname Hsize. unfold Size.
  apply String.eqb_neq in Hname. rewrite Hname. simpl.
  apply Z.eqb_neq in Hsize. rewrite Hsize. reflexivity.
Qed.

Lemma Size_vhd_multiple (t : imageType) (size : Z) :
  size <> 0%Z -> (size mod common.MebiByte = 0)%Z -> Size t size = size.
Proof.
  intros Hsize Hmod. unfold Size.
  apply Z.eqb_eq in Hmod. rewrite Hmod. simpl. rewrite andb_false_r.
  apply Z.eqb_neq in Hsize. rewrite Hsize. reflexivity.
Qed.

Lemma Size_vhd_round (t : imageType) (size : Z) :
  name t = "vhd" -> (0 <= size)%Z ->
  (size <= common.uint64_modulus - common.MebiByte)%Z ->
  (size mod common.MebiByte <> 0)%Z ->
  Size t size = ((size / common.MebiByte + 1) * common.MebiByte)%Z.
Proof.
  intros Hname Hlo Hhi Hmod. unfold Size.
  apply String.eqb_eq in Hname. rewrite Hname.
  apply Z.eqb_neq in Hmod. rewrite Hmod. simpl.
  apply Z.eqb_neq in Hmod.
  unfold common.wrap64, common.uint64_modulus, common.MebiByte in *.
  pose proof (Z.div_mod size 1048576 ltac:(lia)) as Hdiv.
  pose proof (Z.mod_pos_bound size 1048576 ltac:(lia)) as Hbound.
  rewrite Z.mod_small by lia.
  destruct ((size / 1048576 + 1) * 1048576 =? 0)%Z eqn:Hz;
    [apply Z.eqb_eq in Hz; lia | reflexivity].
Qed.

(** C7, as amended.  For a caller size that is a [uint64]: on the VHD
    type a non-zero size of at most 2^64 - 2^20 bytes becomes the least
    multiple of 1 MiB that is not below it (1 byte becomes 1 MiB, a
    non-zero multiple of 1 MiB is unchanged); on every type the size 0
    becomes the default size of the type; on every other type a non-zero
    size is unchanged. *)
Theorem Size_rounds_vhd_only (t : imageType) (size : Z) :
  common.is_uint64 size ->
  (name t = "vhd" -> size <> 0%Z ->
   (size <= common.uint64_modulus - common.MebiByte)%Z ->
   (Size t size mod common.MebiByte = 0)%Z
   /\ (size <= Size t size < size + common.MebiByte)%Z)
  /\ (name t = "vhd" -> Size t 1 = common.MebiByte)
  /\ (size <> 0%Z -> (size mod common.MebiByte = 0)%Z ->
      Size t size = size)
  /\ Size t 0 = defaultSize t
  /\ (name t <> "vhd" -> size <> 0%Z -> Size t size = size).
Proof.
  intros [Hlo Hhi]. repeat split.
  - destruct (Z.eq_dec (size mod common.MebiByte)%Z 0%Z) as [Hmod | Hmod].
    + rewrite Size_vhd_multiple; assumption.
    + rewrite Size_vhd_round by assumption.
      apply Z.mod_mul. unfold common.MebiByte. lia.
  - destruct (Z.eq_dec (size mod common.MebiByte)%Z 0%Z) as [Hmod | Hmod].
    + rewrite Size_vhd_multiple by assumption. lia.
    + rewrite Size_vhd_round by assumption.
      unfold common.MebiByte in *.
      pose proof (Z.div_mod size 1048576 ltac:(lia)).
      pose proof (Z.mod_pos_bound size 1048576 ltac:(lia)). lia.
  - destruct (Z.eq_dec (size mod common.MebiByte)%Z 0%Z) as [Hmod | Hmod].
    + rewrite Size_vhd_multiple by assumption.
      unfold common.MebiByte. lia.
    + rewrite Size_vhd_round by assumption.
      unfold common.MebiByte in *.
      pose proof (Z.div_mod size 1048576 ltac:(lia)).
      pose proof (Z.mod_pos_bound size 1048576 ltac:(lia)). lia.
  - intros Hname. rewrite Size_vhd_round; try assumption;
      unfold common.uint64_modulus, common.MebiByte; try lia;
      reflexivity || (intros Hc; discriminate Hc).
  - apply Size_vhd_multiple.
  - apply Size_zero.
  - apply Size_other.
Qed.

End ImageSize.

Section OptionsValidator.

Context `{BA : blueprint.API} `{BM : !blueprint.Methods}
        `{DA : disk.API} `{IM : !rhel8.Imports}.
Import rhel8.

Lemma firstError_Some rules e :
  firstError rules = Some e -> In (Some e) rules.
Proof.
  induction rules as [|[e'|] rules IH]; simpl; intros Hfirst.
  - discriminate.
  - left. exact Hfirst.
  - right. auto.
Qed.

Ltac by_cases := repeat case_match; discriminate.

(** No rule but the first builds the container error. *)
Lemma later_rules_not_containers `{DP : disk.Policy} t c o n d :
  firstError
    [ bootISORule t c o; rawImageRule t o; kernelRule t c;
      ostreeMountpointsRule t (blueprint.GetFilesystems c);
      mountpointPolicyRule (blueprint.GetFilesystems c);
      openSCAPRule t c ]
  <> Some (EmbeddingContainersUnsupported n d).
Proof.
  intros Hfirst. apply firstError_Some in Hfirst. simpl in Hfirst.
  destruct Hfirst as [H | [H | [H | [H | [H | [H | []]]]]]]; revert H.
  - unfold bootISORule, simplifiedInstallerRule, installerRule.
    by_cases.
  - unfold rawImageRule. by_cases.
  - unfold kernelRule. by_cases.
  - unfold ostreeMountpointsRule. by_cases.
  - unfold mountpointPolicyRule. by_cases.
  - unfold openSCAPRule. by_cases.
Qed.

(** C1.  With [rpmOstree] set and a non-empty list of container specs,
    [checkOptions] returns the container-embedding error unless the
    image type is [edge-commit] or [edge-container]; for these two types
    and for every type without [rpmOstree], the container rule gives no
    error and [checkOptions] never returns that error. *)
Theorem containers_only_on_commits `{DP : disk.Policy}
    (t : imageType) (c : blueprint.Customizations)
    (o : distro.ImageOptions) (cs : list container.Spec) :
  (rpmOstree t = true -> cs <> [] ->
   name t <> "edge-commit" -> name t <> "edge-container" ->
   checkOptions t c o cs
   = Some (EmbeddingContainersUnsupported (name t)
             (distroName (distro (arch t)))))
  /\ (name t = "edge-commit" \/ name t = "edge-container"
      \/ rpmOstree t = false ->
      containersRule t cs = None
      /\ forall n d,
          checkOptions t c o cs
          <> Some (EmbeddingContainersUnsupported n d)).
Proof.
  split.
  - intros Host Hcs Hcommit Hcontainer.
    unfold checkOptions, containersRule.
    apply String.eqb_neq in Hcommit, Hcontainer.
    rewrite Host, Hcommit, Hcontainer.
    rewrite bool_decide_eq_true_2 by (destruct cs; simpl; [done | lia]).
    reflexivity.
  - intros Hexempt.
    assert (containersRule t cs = None) as Hrule.
    { unfold containersRule.
      destruct Hexempt as [Hn | [Hn | Host]].
      - apply String.eqb_eq in Hn. rewrite Hn. simpl.
        rewrite !andb_false_r. reflexivity.
      - apply String.eqb_eq in Hn. rewrite Hn. simpl.
        rewrite !andb_false_r. reflexivity.
      - rewrite Host. rewrite andb_false_r. reflexivity. }
    split; [exact Hrule|]. intros n d.
    unfold checkOptions. rewrite Hrule. cbn [firstError].
    apply later_rules_not_containers.
Qed.

(** C6.  With [rpmOstree] set and a mountpoint list that is not nil (so
    for every non-empty list), [checkOptions] returns an error, and the
    same error whatever the mountpoint policy and its check are. *)
Theorem ostree_rejects_mountpoints (DP DP' : disk.Policy)
    (t : imageType) (c : blueprint.Customizations)
    (o : distro.ImageOptions) (cs : list container.Spec)
    (fs : list blueprint.FilesystemCustomization) :
  rpmOstree t = true ->
  blueprint.GetFilesystems c = Some fs ->
  exists e,
    checkOptions (DP := DP) t c o cs = Some e
    /\ checkOptions (DP := DP') t c o cs = Some e.
Proof.
  intros Host Hfs. unfold checkOptions. rewrite Hfs.
  assert (ostreeMountpointsRule t (Some fs) = Some MountpointsOnOSTree)
    as ->.
  { unfold ostreeMountpointsRule. rewrite Host.
    rewrite bool_decide_eq_true_2 by eauto. reflexivity. }
  destruct (containersRule t cs); [simpl; eauto|].
  destruct (bootISORule t c o); [simpl; eauto|].
  destruct (rawImageRule t o); [simpl; eauto|].
  destruct (kernelRule t c); simpl; eauto.
Qed.

Lemma nonEmpty_true s : nonEmpty s = true <-> s <> "".
Proof.
  unfold nonEmpty. rewrite negb_true_iff. apply String.eqb_neq.
Qed.

Lemma nonEmpty_false s : nonEmpty s = false <-> s = "".
Proof.
  unfold nonEmpty. rewrite negb_false_iff. apply String.eqb_eq.
Qed.

Lemma diunSet_one fdo : diunSet fdo = 1 <-> exactlyOneDiun fdo.
Proof.
  unfold diunSet, exactlyOneDiun. cbv zeta.
  destruct (nonEmpty (blueprint.DiunPubKeyHash fdo)) eqn:Hh;
    destruct (nonEmpty (blueprint.DiunPubKeyInsecure fdo)) eqn:Hi;
    destruct (nonEmpty (blueprint.DiunPubKeyRootCerts fdo)) eqn:Hr;
    repeat match goal with
           | H : nonEmpty _ = true |- _ => apply nonEmpty_true in H
           | H : nonEmpty _ = false |- _ => apply nonEmpty_false in H
           end;
    simpl; split; intros H; try lia; try tauto.
Qed.

(** C5, as amended.  On the [edge-simplified-installer] type (boot ISO,
    OSTree, with a resolved checksum), the installer rule gives an error
    when the customizations are outside the allow-list of installation
    device and FDO, when no installation device is given, and, with an
    FDO block, when the manufacturing server URL is missing or the
    number of trust anchors that are set is not exactly one; an error of
    this rule makes [checkOptions] fail, and is the error it returns when
    no container is embedded.  With the allow-list respected, a device,
    and either no FDO block or one with a URL and exactly one trust
    anchor, the rule gives no error, and [checkOptions] succeeds when,
    moreover, no container is embedded and no later rule is violated
    (no kernel arguments, no mountpoints, no OpenSCAP block, and the
    mountpoint policy accepts the absence of mountpoints). *)
Theorem simplified_installer_rules `{DP : disk.Policy}
    (t : imageType) (c : blueprint.Customizations)
    (o : distro.ImageOptions) (cs : list container.Spec) :
  name t = "edge-simplified-installer" ->
  bootISO t = true -> rpmOstree t = true ->
  distro.FetchChecksum (distro.OSTree o) <> "" ->
  let allowed := ["InstallationDevice"; "FDO"] in
  let passes fdo :=
    blueprint.ManufacturingServerURL fdo <> "" /\ exactlyOneDiun fdo in
  bootISORule t c o = simplifiedInstallerRule t c
  /\ (is_Some (blueprint.CheckAllowed c allowed) ->
      simplifiedInstallerRule t c
      = Some (UnsupportedCustomizations (name t) allowed))
  /\ (blueprint.CheckAllowed c allowed = None ->
      blueprint.GetInstallationDevice c = "" ->
      simplifiedInstallerRule t c
      = Some (RequiresInstallationDevice (name t)))
  /\ (forall fdo,
        blueprint.CheckAllowed c allowed = None ->
        blueprint.GetInstallationDevice c <> "" ->
        blueprint.GetFDO c = Some fdo ->
        (blueprint.ManufacturingServerURL fdo = "" ->
         simplifiedInstallerRule t c
         = Some (RequiresManufacturingServerURL (name t)))
        /\ (blueprint.ManufacturingServerURL fdo <> "" ->
            ~ exactlyOneDiun fdo ->
            simplifiedInstallerRule t c
            = Some (RequiresOneDiunPubKey (name t))))
  /\ (forall e,
        simplifiedInstallerRule t c = Some e ->
        is_Some (checkOptions t c o cs)
        /\ (cs = [] -> checkOptions t c o cs = Some e))
  /\ (blueprint.CheckAllowed c allowed = None ->
      blueprint.GetInstallationDevice c <> "" ->
      (forall fdo, blueprint.GetFDO c = Some fdo -> passes fdo) ->
      simplifiedInstallerRule t c = None
      /\ (cs = [] ->
          blueprint.KernelAppend (blueprint.GetKernel c) = "" ->
          blueprint.GetFilesystems c = None ->
          disk.CheckMountpoints None disk.MountpointPolicies = None ->
          blueprint.GetOpenSCAP c = None ->
          checkOptions t c o cs = None)).
Proof.
  intros Hname Hiso Host Hsum allowed passes.
  assert (bootISORule t c o = simplifiedInstallerRule t c) as Hboot.
  { unfold bootISORule. rewrite Hiso, Host, Hname. simpl.
    apply String.eqb_neq in Hsum. rewrite Hsum. reflexivity. }
  assert (rawImageRule t o = None) as Hraw.
  { unfold rawImageRule. rewrite Hname. reflexivity. }
  assert (forall fdo,
             blueprint.CheckAllowed c allowed = None ->
             blueprint.GetInstallationDevice c <> "" ->
             blueprint.GetFDO c = Some fdo ->
             simplifiedInstallerRule t c
             = if String.eqb (blueprint.ManufacturingServerURL fdo) ""
               then Some (RequiresManufacturingServerURL (name t))
               else if negb (diunSet fdo =? 1)%nat
               then Some (RequiresOneDiunPubKey (name t))
               else None) as Hfdo.
  { intros fdo Hallowed Hdev Hget. unfold simplifiedInstallerRule.
    fold allowed. rewrite Hallowed, Hget.
    apply String.eqb_neq in Hdev. rewrite Hdev. reflexivity. }
  split; [exact Hboot|]. split; [|split; [|split; [|split]]].
  - intros [msg Hmsg]. unfold simplifiedInstallerRule. fold allowed.
    rewrite Hmsg. reflexivity.
  - intros Hallowed Hdev. unfold simplifiedInstallerRule. fold allowed.
    rewrite Hallowed. apply String.eqb_eq in Hdev. rewrite Hdev.
    reflexivity.
  - intros fdo Hallowed Hdev Hget.
    rewrite (Hfdo fdo Hallowed Hdev Hget). split.
    + intros Hurl. apply String.eqb_eq in Hurl. rewrite Hurl.
      reflexivity.
    + intros Hurl Hnot. apply String.eqb_neq in Hurl. rewrite Hurl.
      rewrite <- diunSet_one in Hnot. apply Nat.eqb_neq in Hnot.
      rewrite Hnot. reflexivity.
  - intros e He. unfold checkOptions. rewrite Hboot, He. split.
    + destruct (containersRule t cs); simpl; eauto.
    + intros ->. reflexivity.
  - intros Hallowed Hdev Hpasses.
    assert (simplifiedInstallerRule t c = None) as Hrule.
    { destruct (blueprint.GetFDO c) as [fdo|] eqn:Hget.
      - rewrite (Hfdo fdo Hallowed Hdev eq_refl).
        destruct (Hpasses fdo eq_refl) as [Hurl Hone].
        apply String.eqb_neq in Hurl. rewrite Hurl.
        apply diunSet_one, Nat.eqb_eq in Hone. rewrite Hone.
        reflexivity.
      - unfold simplifiedInstallerRule. fold allowed.
        rewrite Hallowed, Hget. apply String.eqb_neq in Hdev.
        rewrite Hdev. reflexivity. }
    split; [exact Hrule|].
    intros -> Happend Hfs Hpolicy Hosc. unfold checkOptions.
    rewrite Hboot, Hrule, Hraw, Hfs.
    assert (kernelRule t c = None) as ->.
    { unfold kernelRule. apply nonEmpty_false in Happend.
      rewrite Happend. reflexivity. }
    unfold mountpointPolicyRule. rewrite Hpolicy.
    unfold openSCAPRule. rewrite Hosc. reflexivity.
Qed.

End OptionsValidator.

Section Resolver.

Context `{BA : blueprint.API} `{BM : !blueprint.Methods}
        `{DA : disk.API} `{IM : !rhel8.Imports} `{DP : !disk.Policy}.
Import rhel8.

Lemma declared_lookup (t : imageType) (k : string) :
  is_Some (packageSets t !! k) ->
  (default rpmmd.empty <$> packageSets t) !! k = Some (getPackages t k).
Proof.
  intros [getter Hk]. rewrite lookup_fmap. unfold getPackages.
  rewrite Hk. destruct getter; reflexivity.
Qed.

Lemma undeclared_lookup (t : imageType) (k : string) :
  packageSets t !! k = None ->
  (default rpmmd.empty <$> packageSets t) !! k = None
  /\ getPackages t k = rpmmd.empty.
Proof.
  intros Hk. rewrite lookup_fmap. unfold getPackages. rewrite Hk. auto.
Qed.




Lemma mergedPackageSets_no_build (t : imageType) bp :
  packageSets t !! buildPkgsKey = None ->
  mergedPackageSets t bp
  = Go.Panic (NoBuildPackageSet (name t) buildPkgsKey).
Proof.
  intros Hbuild. unfold mergedPackageSets.
  rewrite (bool_decide_eq_false_2 (is_Some (packageSets t !! buildPkgsKey)));
    [reflexivity|].
  rewrite Hbuild. intros [? ?]. discriminate.
Qed.


Lemma mergedPackageSets_Ok_build (t : imageType) bp m :
  mergedPackageSets t bp = Go.Ok m ->
  is_Some (packageSets t !! buildPkgsKey).
Proof.
  intros Hm. destruct (packageSets t !! buildPkgsKey) eqn:Hb; [eauto|].
  rewrite mergedPackageSets_no_build in Hm by exact Hb. discriminate.
Qed.







End Resolver.

(** * The depsolve job *)

Section DepsolveLoop.

Context `{Solver : worker.RPMMD}.
Import worker.

Variables (repos : list rpmmd.RepoConfig)
          (modulePlatformID arch releasever : string).

Local Abbreviation solve set :=
  (Depsolve set repos modulePlatformID arch releasever).
Local Abbreviation loop entries acc :=
  (depsolveLoop entries repos modulePlatformID arch releasever acc).

Lemma depsolveLoop_all entries :
  forall acc,
    NoDup (entries.*1) ->
    (forall k set, In (k, set) entries ->
                   exists specs, solve set = inr specs) ->
    exists m,
      loop entries acc = inr m
      /\ (forall k set, In (k, set) entries ->
                        exists specs,
                          solve set = inr specs /\ m !! k = Some specs)
      /\ (forall k, k ∉ entries.*1 -> m !! k = acc !! k).
Proof.
  induction entries as [|[k0 set0] entries IH]; intros acc Hnodup Hall.
  - exists acc. simpl. split; [reflexivity|]. split; [intros ? ? []|auto].
  - simpl in *. apply NoDup_cons in Hnodup as [Hfresh Hnodup].
    destruct (Hall k0 set0 (or_introl eq_refl)) as [specs0 Hsolve0].
    rewrite Hsolve0.
    destruct (IH (<[ k0 := specs0 ]> acc) Hnodup) as [m [Hm [Hin Hout]]].
    { intros k set Hk. apply (Hall k set). auto. }
    exists m. split; [exact Hm|]. split.
    + intros k set [Heq | Hk]; [|auto].
      injection Heq as <- <-. exists specs0. split; [exact Hsolve0|].
      rewrite Hout by exact Hfresh. apply lookup_insert_eq.
    + intros k Hk. apply not_elem_of_cons in Hk as [Hne Hk].
      rewrite Hout by exact Hk. apply lookup_insert_ne. congruence.
Qed.

Lemma depsolveLoop_failure entries :
  forall acc k set err,
    In (k, set) entries -> solve set = inl err ->
    exists k' set' err',
      In (k', set') entries
      /\ solve set' = inl err'
      /\ loop entries acc = inl err'.
Proof.
  induction entries as [|[k0 set0] entries IH];
    intros acc k set err Hin Hfail; [destruct Hin|].
  simpl. destruct (solve set0) as [err0 | specs0] eqn:Hsolve0.
  - exists k0, set0, err0. simpl. auto.
  - destruct Hin as [Heq | Hin]; [injection Heq as <- <-; congruence|].
    destruct (IH (<[ k0 := specs0 ]> acc) k set err Hin Hfail)
      as [k' [set' [err' [Hin' [Hfail' Hloop]]]]].
    exists k', set', err'. simpl. auto.
Qed.

End DepsolveLoop.

Section Depsolve.

Context `{Solver : worker.RPMMD}.
Import worker.

Variable visit :
  gmap string rpmmd.PackageSet -> list (string * rpmmd.PackageSet).

(** [range] visits every entry of the map once, in some order. *)
Hypothesis visit_once : forall m, visit m ≡ₚ map_to_list m.

Lemma visit_In m k set : In (k, set) (visit m) <-> m !! k = Some set.
Proof.
  rewrite <- list_elem_of_In, (visit_once m). apply elem_of_map_to_list.
Qed.

Lemma visit_NoDup m : NoDup ((visit m).*1).
Proof. rewrite (visit_once m). apply NoDup_fst_map_to_list. Qed.

(** C9.  A job whose arguments decode reports one result.  When every
    requested package set resolves, the result has no error and maps
    every requested name to the specs that the solver gives for its set,
    and no other name; when some package set does not resolve, the
    result carries the error of a set that failed and its map of package
    specs is nil. *)
Theorem depsolve_all_or_nothing (job : Job) (args : DepsolveJob) :
  Args job = inr args ->
  let requested := PackageSets args in
  let solve set :=
    Depsolve set (Repos args) (ModulePlatformID args) (Arch args)
      (Releasever args) in
  ((forall k set, requested !! k = Some set ->
                  exists specs, solve set = inr specs) ->
   exists m,
     snd (Run visit job)
     = Some {| PackageSpecs := Some m; Error := "" |}
     /\ (forall k set, requested !! k = Some set ->
                       exists specs,
                         solve set = inr specs /\ m !! k = Some specs)
     /\ (forall k, requested !! k = None -> m !! k = None))
  /\ ((exists k set err,
         requested !! k = Some set /\ solve set = inl err) ->
      exists k set err,
        requested !! k = Some set /\ solve set = inl err
        /\ snd (Run visit job)
           = Some {| PackageSpecs := None; Error := err |}).
Proof.
  intros Hargs requested solve. subst requested solve. cbv beta. split.
  - intros Hall.
    destruct (depsolveLoop_all (Repos args) (ModulePlatformID args)
                (Arch args) (Releasever args) (visit (PackageSets args)) ∅
                (visit_NoDup (PackageSets args)))
      as [m [Hm [Hin Hout]]].
    { intros k set Hk. apply (Hall k set), visit_In, Hk. }
    exists m. split; [|split].
    + unfold Run. rewrite Hargs. unfold depsolve. rewrite Hm.
      destruct (Update job _); reflexivity.
    + intros k set Hk. apply Hin, visit_In, Hk.
    + intros k Hk. rewrite Hout; [apply lookup_empty|].
      intros Hmem. apply list_elem_of_fmap in Hmem as [[k' set] [-> Hmem]].
      apply list_elem_of_In, visit_In in Hmem. simpl in Hk. congruence.
  - intros [k [set [err [Hk Hfail]]]].
    apply visit_In in Hk.
    destruct (depsolveLoop_failure (Repos args) (ModulePlatformID args)
                (Arch args) (Releasever args) (visit (PackageSets args)) ∅
                k set err Hk Hfail)
      as [k' [set' [err' [Hk' [Hfail' Hloop]]]]].
    exists k', set', err'. split; [apply visit_In, Hk'|].
    split; [exact Hfail'|].
    unfold Run. rewrite Hargs. unfold depsolve.
    rewrite Hloop. destruct (Update job _); reflexivity.
Qed.

End Depsolve.

(** * The theorems on concrete requests *)

Section Runs.

#[local] Existing Instances
  sample.blueprintAPI sample.blueprintMethods sample.diskAPI
  sample.imports sample.solver.
Import rhel8.

Let strict := sample.strict.
Let lenient := sample.lenient.

Lemma containers_only_on_commits_run :
  checkOptions (DP := strict) sample.edgeAMIImgType None
    sample.commitOptions [sample.registry]
  = Some (EmbeddingContainersUnsupported "edge-ami" "rhel-88")
  /\ containersRule sample.edgeCommitImgType [sample.registry] = None
  /\ containersRule sample.vhdImgType [sample.registry] = None.
Proof.
  split; [|split].
  - apply (proj1 (containers_only_on_commits (DP := strict)
                    sample.edgeAMIImgType None sample.commitOptions
                    [sample.registry]));
      [reflexivity | discriminate | discriminate | discriminate].
  - apply (proj2 (containers_only_on_commits (DP := strict)
                    sample.edgeCommitImgType None sample.commitOptions
                    [sample.registry])).
    left. reflexivity.
  - apply (proj2 (containers_only_on_commits (DP := strict)
                    sample.vhdImgType None sample.commitOptions
                    [sample.registry])).
    right. right. reflexivity.
Defined.

Lemma ostree_rejects_mountpoints_run :
  exists e,
    checkOptions (DP := lenient) sample.edgeCommitImgType
      (Some sample.dataMountpoint) sample.commitOptions [] = Some e
    /\ checkOptions (DP := strict) sample.edgeCommitImgType
         (Some sample.dataMountpoint) sample.commitOptions [] = Some e.
Proof.
  apply (ostree_rejects_mountpoints lenient strict
           sample.edgeCommitImgType (Some sample.dataMountpoint)
           sample.commitOptions []
           [ {| blueprint.Mountpoint := "/data";
                blueprint.MinSize := 1073741824 |} ]);
    reflexivity.
Defined.

Lemma simplified_installer_rules_run :
  checkOptions (DP := strict) sample.simplifiedInstallerImgType
    (Some (sample.installerCustomizations sample.hashOnly))
    sample.commitOptions [] = None
  /\ simplifiedInstallerRule sample.simplifiedInstallerImgType
       (Some (sample.installerCustomizations sample.hashAndInsecure))
     = Some (RequiresOneDiunPubKey "edge-simplified-installer").
Proof.
  split.
  - destruct (simplified_installer_rules (DP := strict)
                sample.simplifiedInstallerImgType
                (Some (sample.installerCustomizations sample.hashOnly))
                sample.commitOptions [])
      as [_ [_ [_ [_ [_ Hgood]]]]];
      [reflexivity | reflexivity | reflexivity | discriminate |].
    apply Hgood; try reflexivity; try discriminate.
    intros fdo Hfdo. injection Hfdo as <-. split; [discriminate|].
    left. split; [discriminate | split; reflexivity].
  - destruct (simplified_installer_rules (DP := strict)
                sample.simplifiedInstallerImgType
                (Some (sample.installerCustomizations
                         sample.hashAndInsecure))
                sample.commitOptions [])
      as [_ [_ [_ [Hfdo _]]]];
      [reflexivity | reflexivity | reflexivity | discriminate |].
    apply (Hfdo sample.hashAndInsecure);
      [reflexivity | discriminate | reflexivity | discriminate |].
    intros [[_ [Hc _]] | [[Hc _] | [Hc _]]]; discriminate Hc.
Defined.

(** C5 as stated fails when a container is embedded: the container rule
    comes first, and the simplified installer is not one of the two
    exempted types.  The request has an installation device, a
    manufacturing server URL and exactly one trust anchor. *)
Lemma simplified_installer_with_container :
  let c := Some (sample.installerCustomizations sample.hashOnly) in
  blueprint.GetInstallationDevice c = "/dev/sda"
  /\ blueprint.CheckAllowed c ["InstallationDevice"; "FDO"] = None
  /\ blueprint.GetFDO c = Some sample.hashOnly
  /\ exactlyOneDiun sample.hashOnly
  /\ simplifiedInstallerRule sample.simplifiedInstallerImgType c = None
  /\ checkOptions (DP := strict) sample.simplifiedInstallerImgType c
       sample.commitOptions [sample.registry]
     = Some (EmbeddingContainersUnsupported "edge-simplified-installer"
               "rhel-88").
Proof.
  cbv zeta. repeat split; try reflexivity.
  left. split; [discriminate | split; reflexivity].
Qed.

Lemma Size_rounds_vhd_only_run :
  Size sample.vhdImgType 1 = 1048576%Z
  /\ Size sample.vhdImgType 0 = 4294967296%Z
  /\ Size sample.qcow2ImgType 1 = 1%Z.
Proof.
  destruct (Size_rounds_vhd_only sample.vhdImgType 1)
    as [_ [Hone [_ [Hzero _]]]];
    [unfold common.is_uint64, common.uint64_modulus; lia|].
  destruct (Size_rounds_vhd_only sample.qcow2ImgType 1)
    as [_ [_ [_ [_ Hother]]]];
    [unfold common.is_uint64, common.uint64_modulus; lia|].
  split; [apply Hone; reflexivity|].
  split; [exact Hzero|].
  apply Hother; [discriminate | lia].
Defined.

(** C7 as stated fails on the sizes above 2^64 - 2^20 that are no
    multiple of 1 MiB: the rounded size is 2^64, the product wraps to 0
    and the default size is returned, which is no rounding up. *)
Lemma Size_vhd_wraps :
  let size := (2 ^ 64 - 1)%Z in
  common.is_uint64 size
  /\ Size sample.vhdImgType size = defaultSize sample.vhdImgType
  /\ (Size sample.vhdImgType size < size)%Z.
Proof.
  cbv zeta. split; [|split].
  - unfold common.is_uint64, common.uint64_modulus. lia.
  - vm_compute. reflexivity.
  - vm_compute. reflexivity.
Qed.





Lemma depsolve_all_or_nothing_run :
  (exists m,
      snd (worker.Run map_to_list (sample.job sample.goodSets))
      = Some {| worker.PackageSpecs := Some m; worker.Error := "" |}
      /\ m !! "build" = Some ["dnf"]
      /\ m !! "packages" = Some ["bash"; "kernel"]
      /\ m !! "blueprint" = None)
  /\ (exists err,
        snd (worker.Run map_to_list (sample.job sample.badSets))
        = Some {| worker.PackageSpecs := None; worker.Error := err |}).
Proof.
  pose proof (fun sets =>
                depsolve_all_or_nothing map_to_list
                  (fun m => reflexivity (map_to_list m))
                  (sample.job sets) _ eq_refl) as Hrun.
  cbv zeta in Hrun. split.
  - destruct (proj1 (Hrun sample.goodSets)) as [m [Hm [Hin Hout]]].
    { intros k set Hk. apply elem_of_map_to_list in Hk.
      vm_compute in Hk.
      repeat (apply elem_of_cons in Hk as [Hk | Hk];
              [injection Hk as -> ->; vm_compute; eauto|]).
      inversion Hk. }
    exists m. split; [exact Hm|]. split; [|split].
    + destruct (Hin "build" _ eq_refl) as [specs [Hs Hlook]].
      vm_compute in Hs. injection Hs as <-. exact Hlook.
    + destruct (Hin "packages" _ eq_refl) as [specs [Hs Hlook]].
      vm_compute in Hs. injection Hs as <-. exact Hlook.
    + apply Hout. reflexivity.
  - destruct (proj2 (Hrun sample.badSets))
      as [k [set [err [_ [_ Hfail]]]]]; [|eauto].
    exists "blueprint",
      {| rpmmd.Include := ["missing"]; rpmmd.Exclude := [];
         rpmmd.Repositories := [] |},
      "no package missing".
    split; vm_compute; reflexivity.
Defined.

End Runs.

(** * Sorted listings *)

Lemma ascii_compare_lt_trans a b c :
  Ascii.compare a b = Lt -> Ascii.compare b c = Lt ->
  Ascii.compare a c = Lt.
Proof.
  unfold Ascii.compare. rewrite !N.compare_lt_iff. apply N.lt_trans.
Qed.

Lemma string_compare_le_trans s1 :
  forall s2 s3,
    String.compare s1 s2 <> Gt -> String.compare s2 s3 <> Gt ->
    String.compare s1 s3 <> Gt.
Proof.
  induction s1 as [|a s1 IH]; intros [|b s2] [|c s3]; simpl;
    try congruence.
  destruct (Ascii.compare a b) eqn:Hab; try congruence.
  - apply Ascii.compare_eq_iff in Hab as ->.
    destruct (Ascii.compare b c); try congruence. apply IH.
  - destruct (Ascii.compare b c) eqn:Hbc; try congruence.
    + apply Ascii.compare_eq_iff in Hbc as <-. rewrite Hab. congruence.
    + rewrite (ascii_compare_lt_trans a b c Hab Hbc). congruence.
Qed.

Lemma strLe_compare a b : Go.strLe a b <-> String.compare a b <> Gt.
Proof.
  unfold Go.strLe, String.leb. destruct (String.compare a b);
    split; congruence.
Qed.

#[global] Instance strLe_trans : Transitive Go.strLe.
Proof.
  intros a b c. rewrite !strLe_compare. apply string_compare_le_trans.
Qed.

#[global] Instance strLe_total : Total Go.strLe.
Proof. intros a b. apply String.leb_total. Qed.

#[global] Instance strLe_antisym : AntiSymm (=) Go.strLe.
Proof. intros a b. apply String.leb_antisym. Qed.

Lemma sortStrings_sorted l : StronglySorted Go.strLe (Go.sortStrings l).
Proof. apply StronglySorted_merge_sort; apply _. Qed.

Lemma sortStrings_perm l : Go.sortStrings l ≡ₚ l.
Proof. apply merge_sort_Permutation. Qed.

(** The sorted list depends on the elements only, not on their order. *)
Lemma sortStrings_unique l l' :
  l ≡ₚ l' -> Go.sortStrings l = Go.sortStrings l'.
Proof.
  intros Hperm. apply (StronglySorted_unique Go.strLe).
  - apply sortStrings_sorted.
  - apply sortStrings_sorted.
  - rewrite !sortStrings_perm. exact Hperm.
Qed.

Lemma sortStrings_is l sorted :
  StronglySorted Go.strLe sorted -> l ≡ₚ sorted ->
  Go.sortStrings l = sorted.
Proof.
  intros Hsorted Hperm. apply (StronglySorted_unique Go.strLe).
  - apply sortStrings_sorted.
  - exact Hsorted.
  - rewrite sortStrings_perm. exact Hperm.
Qed.

(** The listing of the keys of a map: sorted, without repetition, with
    exactly the keys, and the same for every order of the visit. *)
Lemma sorted_keys {A} (visit visit' : gmap string A -> list (string * A))
    (m : gmap string A) :
  (forall m, visit m ≡ₚ map_to_list m) ->
  (forall m, visit' m ≡ₚ map_to_list m) ->
  let listing := Go.sortStrings (Go.keys visit m) in
  StronglySorted Go.strLe listing
  /\ NoDup listing
  /\ (forall k, k ∈ listing <-> is_Some (m !! k))
  /\ length listing = size m
  /\ listing = Go.sortStrings (Go.keys visit' m).
Proof.
  intros Hvisit Hvisit' listing.
  assert (Go.keys visit m ≡ₚ (map_to_list m).*1) as Hkeys.
  { unfold Go.keys. rewrite (Hvisit m). reflexivity. }
  assert (listing ≡ₚ (map_to_list m).*1) as Hlisting.
  { unfold listing. rewrite sortStrings_perm. exact Hkeys. }
  split; [apply sortStrings_sorted|]. split; [|split; [|split]].
  - rewrite Hlisting. apply NoDup_fst_map_to_list.
  - intros k. rewrite Hlisting. rewrite list_elem_of_fmap. split.
    + intros [[k' v] [-> Hin]]. apply elem_of_map_to_list in Hin. eauto.
    + intros [v Hv]. exists (k, v). split; [reflexivity|].
      apply elem_of_map_to_list, Hv.
  - rewrite Hlisting, length_fmap. apply length_map_to_list.
  - apply sortStrings_unique. rewrite Hkeys. unfold Go.keys.
    rewrite (Hvisit' m). reflexivity.
Qed.

(** * The catalogue: registration *)

Section Registry.

Import scos.

Lemma addAliases_entries itName aliases :
  forall table table',
    addAliases itName aliases table = Go.Ok table' ->
    forall alias,
      table' !! alias
      = if decide (alias ∈ aliases) then Some itName else table !! alias.
Proof.
  induction aliases as [|al rest IH]; intros table table' Hadd alias.
  - simpl in Hadd. injection Hadd as <-.
    rewrite decide_False by apply not_elem_of_nil. reflexivity.
  - simpl in Hadd. destruct (table !! al) eqn:Hal; [discriminate|].
    rewrite (IH _ _ Hadd alias).
    destruct (decide (alias = al)) as [-> | Hne].
    + rewrite (decide_True (P := al ∈ al :: rest)) by apply list_elem_of_here.
      case_decide; [reflexivity | apply lookup_insert_eq].
    + rewrite lookup_insert_ne by congruence.
      destruct (decide (alias ∈ rest)) as [Hin | Hout].
      * rewrite decide_True by (apply list_elem_of_further, Hin).
        reflexivity.
      * rewrite decide_False; [reflexivity|].
        intros [? | ?]%elem_of_cons; congruence.
Qed.

Lemma addAliases_succeeds itName aliases :
  forall table,
    (exists table', addAliases itName aliases table = Go.Ok table')
    <-> NoDup aliases /\ forall al, al ∈ aliases -> table !! al = None.
Proof.
  induction aliases as [|al rest IH]; intros table; simpl.
  - split; [|eauto]. intros _. split; [constructor|].
    intros al Hal. apply elem_of_nil in Hal. destruct Hal.
  - destruct (table !! al) eqn:Hal.
    + split; [intros [? ?]; discriminate|].
      intros [_ Hfresh]. rewrite Hfresh in Hal by apply list_elem_of_here.
      discriminate.
    + rewrite IH, NoDup_cons. split.
      * intros [Hnodup Hfresh].
        assert (al ∉ rest) as Hnotin.
        { intros Hin. specialize (Hfresh al Hin).
          rewrite lookup_insert_eq in Hfresh. discriminate. }
        split; [auto|]. intros x Hx.
        apply elem_of_cons in Hx as [-> | Hx]; [exact Hal|].
        specialize (Hfresh x Hx).
        rewrite lookup_insert_ne in Hfresh by congruence. exact Hfresh.
      * intros [[Hnotin Hnodup] Hfresh]. split; [exact Hnodup|].
        intros x Hx. rewrite lookup_insert_ne by congruence.
        apply Hfresh, list_elem_of_further, Hx.
Qed.

Lemma addAliases_never_fails itName aliases :
  forall table, Go.fails (addAliases itName aliases table) = false.
Proof.
  induction aliases as [|al rest IH]; intros table; simpl; [reflexivity|].
  destruct (table !! al); [reflexivity | apply IH].
Qed.

Lemma addImageTypes_step p it0 rest a :
  addImageTypes p (it0 :: rest) a
  = match addAliases (name it0) (nameAliases it0) (imageTypeAliases a) with
    | Go.Ok table =>
        addImageTypes p rest
          {| distro := distro a; archName := archName a;
             imageTypes := <[ name it0 := bindTo a p it0 ]> (imageTypes a);
             imageTypeAliases := table |}
    | Go.Err e => Go.Err e
    | Go.Panic v => Go.Panic v
    end.
Proof. reflexivity. Qed.

Lemma addImageTypes_succeeds p its :
  forall a,
    (exists a', addImageTypes p its a = Go.Ok a')
    <-> NoDup (aliasesOf its)
        /\ forall al, al ∈ aliasesOf its -> imageTypeAliases a !! al = None.
Proof.
  induction its as [|it0 rest IH]; intros a.
  - simpl. split; [|eauto]. intros _. split; [constructor|].
    intros al Hal. apply elem_of_nil in Hal. destruct Hal.
  - rewrite addImageTypes_step.
    change (aliasesOf (it0 :: rest))
      with (nameAliases it0 ++ aliasesOf rest).
    rewrite NoDup_app.
    destruct (addAliases (name it0) (nameAliases it0) (imageTypeAliases a))
      as [table | e | v] eqn:Htable.
    + pose proof (addAliases_entries _ _ _ _ Htable) as Hentries.
      destruct (proj1 (addAliases_succeeds _ _ _) (ex_intro _ _ Htable))
        as [Hnodup Hfresh].
      rewrite IH. simpl. split.
      * intros [Hrest Hfree]. split; [split; [exact Hnodup|split]|].
        -- intros x Hx Hx'. specialize (Hfree x Hx').
           rewrite Hentries, decide_True in Hfree by exact Hx.
           discriminate.
        -- exact Hrest.
        -- intros x Hx. apply elem_of_app in Hx as [Hx | Hx]; [auto|].
           specialize (Hfree x Hx). rewrite Hentries in Hfree.
           case_decide; [discriminate | exact Hfree].
      * intros [[_ [Hdisj Hrest]] Hfree]. split; [exact Hrest|].
        intros x Hx. rewrite Hentries.
        rewrite decide_False by (intros Hin; exact (Hdisj x Hin Hx)).
        apply Hfree, elem_of_app. auto.
    + pose proof (addAliases_never_fails (name it0) (nameAliases it0)
                    (imageTypeAliases a)) as Hfail.
      rewrite Htable in Hfail. discriminate.
    + split; [intros [? ?]; discriminate|].
      intros [[Hnodup _] Hfree]. exfalso.
      destruct (proj2 (addAliases_succeeds (name it0) (nameAliases it0)
                         (imageTypeAliases a))) as [table Habs].
      * split; [exact Hnodup|]. intros x Hx. apply Hfree, elem_of_app. auto.
      * congruence.
Qed.

Lemma addImageTypes_never_fails p its :
  forall a, Go.fails (addImageTypes p its a) = false.
Proof.
  induction its as [|it0 rest IH]; intros a; [reflexivity|].
  rewrite addImageTypes_step.
  pose proof (addAliases_never_fails (name it0) (nameAliases it0)
                (imageTypeAliases a)) as Hfail.
  destruct (addAliases _ _ _); [apply IH | discriminate | reflexivity].
Qed.

(** X1.  [addImageTypes] registers a list of image types exactly when the
    aliases of these types, taken together, are pairwise distinct and none
    of them is an alias that the architecture already has; in every other
    case it panics, and it never returns an error. *)
Theorem addImageTypes_succeeds_iff (p : Platform) (its : list imageType)
    (a : architecture) :
  ((exists a', addImageTypes p its a = Go.Ok a')
   <-> NoDup (aliasesOf its)
       /\ forall al, al ∈ aliasesOf its -> imageTypeAliases a !! al = None)
  /\ (Go.panics (addImageTypes p its a) = true
      <-> ~ (NoDup (aliasesOf its)
             /\ forall al,
                 al ∈ aliasesOf its -> imageTypeAliases a !! al = None))
  /\ Go.fails (addImageTypes p its a) = false.
Proof.
  pose proof (addImageTypes_succeeds p its a) as Hiff.
  pose proof (addImageTypes_never_fails p its a) as Hfail.
  split; [exact Hiff|]. split; [|exact Hfail].
  rewrite <- Hiff. destruct (addImageTypes p its a) as [a' | e | v];
    simpl in *.
  - split; [discriminate|]. intros Hno. exfalso. eauto.
  - discriminate.
  - split; [|reflexivity]. intros _ [a' Ha']. discriminate.
Qed.

Lemma addImageTypes_fields p its :
  forall a a',
    addImageTypes p its a = Go.Ok a' ->
    archName a' = archName a /\ distro a' = distro a.
Proof.
  induction its as [|it0 rest IH]; intros a a' Hadd.
  - injection Hadd as <-. auto.
  - rewrite addImageTypes_step in Hadd.
    destruct (addAliases _ _ _) as [table | |]; try discriminate.
    destruct (IH _ _ Hadd) as [Hname Hdistro]. auto.
Qed.

Lemma addImageTypes_other_types p its :
  forall a a' n,
    addImageTypes p its a = Go.Ok a' -> n ∉ name <$> its ->
    imageTypes a' !! n = imageTypes a !! n.
Proof.
  induction its as [|it0 rest IH]; intros a a' n Hadd Hn.
  - injection Hadd as <-. reflexivity.
  - rewrite addImageTypes_step in Hadd.
    destruct (addAliases _ _ _) as [table | |]; try discriminate.
    rewrite fmap_cons in Hn. apply not_elem_of_cons in Hn as [Hne Hn].
    rewrite (IH _ _ n Hadd Hn). simpl.
    apply lookup_insert_ne. congruence.
Qed.

Lemma addImageTypes_new_types p its :
  forall a a' it,
    addImageTypes p its a = Go.Ok a' -> NoDup (name <$> its) ->
    it ∈ its -> imageTypes a' !! name it = Some (bindTo a p it).
Proof.
  induction its as [|it0 rest IH]; intros a a' it Hadd Hnodup Hin.
  - apply elem_of_nil in Hin. destruct Hin.
  - rewrite addImageTypes_step in Hadd.
    destruct (addAliases _ _ _) as [table | |]; try discriminate.
    rewrite fmap_cons in Hnodup.
    apply NoDup_cons in Hnodup as [Hfresh Hnodup].
    apply elem_of_cons in Hin as [-> | Hin].
    + rewrite (addImageTypes_other_types _ _ _ _ _ Hadd Hfresh). simpl.
      apply lookup_insert_eq.
    + rewrite (IH _ _ it Hadd Hnodup Hin). reflexivity.
Qed.

Lemma addImageTypes_alias_entries p its :
  forall a a',
    addImageTypes p its a = Go.Ok a' ->
    (forall it al,
        it ∈ its -> al ∈ nameAliases it ->
        imageTypeAliases a' !! al = Some (name it))
    /\ (forall al,
          al ∉ aliasesOf its ->
          imageTypeAliases a' !! al = imageTypeAliases a !! al).
Proof.
  induction its as [|it0 rest IH]; intros a a' Hadd.
  - injection Hadd as <-. split; [|reflexivity].
    intros it al Hin. apply elem_of_nil in Hin. destruct Hin.
  - pose proof (proj1 (addImageTypes_succeeds p (it0 :: rest) a)
                  (ex_intro _ _ Hadd)) as [Hnodup _].
    change (aliasesOf (it0 :: rest))
      with (nameAliases it0 ++ aliasesOf rest) in *.
    apply NoDup_app in Hnodup as [_ [Hdisj _]].
    rewrite addImageTypes_step in Hadd.
    destruct (addAliases _ _ _) as [table | |] eqn:Htable;
      try discriminate.
    pose proof (addAliases_entries _ _ _ _ Htable) as Hentries.
    destruct (IH _ _ Hadd) as [Hnew Hold]. simpl in Hold. split.
    + intros it al Hin Hal. apply elem_of_cons in Hin as [-> | Hin].
      * rewrite Hold by (exact (Hdisj al Hal)).
        rewrite Hentries. apply decide_True, Hal.
      * exact (Hnew it al Hin Hal).
    + intros al Hal. apply not_elem_of_app in Hal as [Hal Hal'].
      rewrite (Hold al Hal'), Hentries. apply decide_False, Hal.
Qed.

(** X2.  After a call of [addImageTypes] that returns, the architecture
    keeps its name and distribution; an image type whose name is not in
    the list is as before; when the names of the list are distinct,
    [GetImageType] gives, under the name of each listed type, the copy of
    that type bound to the architecture and the platform; every alias of
    a listed type names that type, and every other alias is as before. *)
Theorem addImageTypes_registers (p : Platform) (its : list imageType)
    (a a' : architecture) :
  addImageTypes p its a = Go.Ok a' ->
  archName a' = archName a /\ distro a' = distro a
  /\ (forall n, n ∉ name <$> its ->
                imageTypes a' !! n = imageTypes a !! n)
  /\ (NoDup (name <$> its) ->
      forall it, it ∈ its ->
                 GetImageType a' (name it) = Go.Ok (bindTo a p it))
  /\ (forall it al,
        it ∈ its -> al ∈ nameAliases it ->
        imageTypeAliases a' !! al = Some (name it))
  /\ (forall al,
        al ∉ aliasesOf its ->
        imageTypeAliases a' !! al = imageTypeAliases a !! al).
Proof.
  intros Hadd.
  destruct (addImageTypes_fields _ _ _ _ Hadd) as [Hname Hdistro].
  destruct (addImageTypes_alias_entries _ _ _ _ Hadd) as [Hnew Hold].
  repeat split; try assumption.
  - intros n Hn. exact (addImageTypes_other_types _ _ _ _ _ Hadd Hn).
  - intros Hnodup it Hin. unfold GetImageType.
    rewrite (addImageTypes_new_types _ _ _ _ _ Hadd Hnodup Hin).
    reflexivity.
Qed.

Lemma addImageTypes_boundCopies p its :
  forall a a',
    boundCopies a -> addImageTypes p its a = Go.Ok a' -> boundCopies a'.
Proof.
  induction its as [|it0 rest IH]; intros a a' Hinv Hadd.
  - injection Hadd as <-. exact Hinv.
  - rewrite addImageTypes_step in Hadd.
    destruct (addAliases _ _ _) as [table | |]; try discriminate.
    refine (IH _ _ _ Hadd). intros n t Hlook. simpl in *.
    apply lookup_insert_Some in Hlook as [[<- <-] | [_ Hlook]].
    + simpl. eauto.
    + exact (Hinv n t Hlook).
Qed.

Lemma populated_boundCopies a : populated a -> boundCopies a.
Proof.
  induction 1 as [d n | p its a a' _ IH Hadd].
  - intros k t Hlook. simpl in Hlook. rewrite lookup_empty in Hlook.
    discriminate.
  - eapply addImageTypes_boundCopies; eauto.
Qed.

(** X3.  In an architecture filled through [addImageTypes], every image
    type is stored under its own name and is bound to this architecture
    and to a platform; so the image type that [GetImageType] returns for
    a name has this name, or has it as a registered alias. *)
Theorem populated_image_types_bound (a : architecture) :
  populated a ->
  boundCopies a
  /\ forall n t,
      GetImageType a n = Go.Ok t ->
      arch t = Some (archName a)
      /\ (name t = n \/ imageTypeAliases a !! n = Some (name t)).
Proof.
  intros Hpop. pose proof (populated_boundCopies a Hpop) as Hinv.
  split; [exact Hinv|]. intros n t. unfold GetImageType.
  destruct (imageTypes a !! n) as [t'|] eqn:Hn.
  - intros Heq. injection Heq as <-.
    destruct (Hinv n t' Hn) as [Hname [Harch _]]. auto.
  - destruct (imageTypeAliases a !! n) as [canon|]; [|discriminate].
    destruct (imageTypes a !! canon) as [t'|] eqn:Hcanon; [|discriminate].
    intros Heq. injection Heq as <-.
    destruct (Hinv canon t' Hcanon) as [Hname [Harch _]].
    rewrite Hname. auto.
Qed.

(** X4.  [ListImageTypes] gives the names under which image types are
    registered, each once, in increasing order, whatever the order in
    which the map is visited; and [GetImageType] finds an image type
    under each listed name, which in an architecture filled through
    [addImageTypes] has this very name. *)
Theorem ListImageTypes_sorted
    (visit visit' : gmap string imageType -> list (string * imageType))
    (a : architecture) :
  (forall m, visit m ≡ₚ map_to_list m) ->
  (forall m, visit' m ≡ₚ map_to_list m) ->
  StronglySorted Go.strLe (ListImageTypes visit a)
  /\ NoDup (ListImageTypes visit a)
  /\ (forall n, n ∈ ListImageTypes visit a
                <-> is_Some (imageTypes a !! n))
  /\ ListImageTypes visit a = ListImageTypes visit' a
  /\ (forall n, n ∈ ListImageTypes visit a ->
                exists t,
                  GetImageType a n = Go.Ok t
                  /\ (populated a -> name t = n)).
Proof.
  intros Hvisit Hvisit'.
  destruct (sorted_keys visit visit' (imageTypes a) Hvisit Hvisit')
    as [Hsorted [Hnodup [Hin [_ Heq]]]].
  repeat split; try assumption; try apply Hin.
  intros n Hn. apply Hin in Hn as [t Ht]. exists t.
  unfold GetImageType. rewrite Ht. split; [reflexivity|].
  intros Hpop. exact (proj1 (populated_boundCopies a Hpop n t Ht)).
Qed.

(** X5.  [ListArches] gives the names of the architectures of the
    distribution, each once, in increasing order, whatever the order in
    which the map is visited; [GetArch] finds an architecture under each
    listed name, gives the [InvalidArchitecture] error for every other
    name, and never panics. *)
Theorem ListArches_sorted
    (visit visit' : gmap string architecture
                    -> list (string * architecture))
    (d : distribution) :
  (forall m, visit m ≡ₚ map_to_list m) ->
  (forall m, visit' m ≡ₚ map_to_list m) ->
  StronglySorted Go.strLe (ListArches visit d)
  /\ NoDup (ListArches visit d)
  /\ ListArches visit d = ListArches visit' d
  /\ (forall n, n ∈ ListArches visit d
                <-> exists a, GetArch d n = Go.Ok a)
  /\ (forall n, n ∉ ListArches visit d ->
                GetArch d n = Go.Err (InvalidArchitecture n)).
Proof.
  intros Hvisit Hvisit'.
  destruct (sorted_keys visit visit' (arches d) Hvisit Hvisit')
    as [Hsorted [Hnodup [Hin [_ Heq]]]].
  assert (forall n, is_Some (arches d !! n)
                    <-> exists a, GetArch d n = Go.Ok a) as Hget.
  { intros n. unfold GetArch. destruct (arches d !! n) as [a|].
    - split; eauto.
    - split; [intros [? ?]; discriminate | intros [? ?]; discriminate]. }
  repeat split; try assumption.
  - intros Hn. apply Hget, Hin, Hn.
  - intros Hn. apply Hin, Hget, Hn.
  - intros n Hn. unfold GetArch.
    destruct (arches d !! n) as [a|] eqn:Ha; [|reflexivity].
    exfalso. apply Hn, Hin. eauto.
Qed.

Lemma addArches_other archs :
  forall (m : gmap string architecture) n,
    n ∉ archName <$> archs ->
    fold_left (fun m a => <[ archName a := a ]> m) archs m !! n = m !! n.
Proof.
  induction archs as [|a0 rest IH]; intros m n Hn; [reflexivity|].
  rewrite fmap_cons in Hn. apply not_elem_of_cons in Hn as [Hne Hn].
  simpl. rewrite (IH _ n Hn). apply lookup_insert_ne. congruence.
Qed.

Lemma addArches_new archs :
  forall (m : gmap string architecture) a,
    NoDup (archName <$> archs) -> a ∈ archs ->
    fold_left (fun m a => <[ archName a := a ]> m) archs m !! archName a
    = Some a.
Proof.
  induction archs as [|a0 rest IH]; intros m a Hnodup Hin.
  - apply elem_of_nil in Hin. destruct Hin.
  - rewrite fmap_cons in Hnodup.
    apply NoDup_cons in Hnodup as [Hfresh Hnodup]. simpl.
    apply elem_of_cons in Hin as [-> | Hin].
    + rewrite (addArches_other rest _ _ Hfresh). apply lookup_insert_eq.
    + exact (IH _ a Hnodup Hin).
Qed.

(** X6.  After [addArches] with architectures of distinct names,
    [GetArch] gives each of them under its name, and answers as before
    for every other name; the other fields of the distribution are
    unchanged. *)
Theorem addArches_then_GetArch (d : distribution)
    (archs : list architecture) :
  NoDup (archName <$> archs) ->
  (forall a, a ∈ archs -> GetArch (addArches d archs) (archName a) = Go.Ok a)
  /\ (forall n, n ∉ archName <$> archs ->
                GetArch (addArches d archs) n = GetArch d n)
  /\ Name (addArches d archs) = Name d
  /\ Releasever (addArches d archs) = Releasever d
  /\ ModulePlatformID (addArches d archs) = ModulePlatformID d
  /\ OSTreeRef (addArches d archs) = OSTreeRef d.
Proof.
  intros Hnodup. repeat split.
  - intros a Hin. unfold GetArch, addArches. simpl.
    rewrite (addArches_new archs _ a Hnodup Hin). reflexivity.
  - intros n Hn. unfold GetArch, addArches. simpl.
    rewrite (addArches_other archs _ n Hn). reflexivity.
Qed.

Lemma getDistro_no_arches base version :
  arches (getDistro base version) = ∅.
Proof. unfold getDistro. destruct (String.eqb base "oe"); reflexivity. Qed.

Lemma listing_is {A} (visit : gmap string A -> list (string * A))
    (m : gmap string A) (names : list string) :
  (forall m, visit m ≡ₚ map_to_list m) ->
  StronglySorted Go.strLe names -> (map_to_list m).*1 ≡ₚ names ->
  Go.sortStrings (Go.keys visit m) = names.
Proof.
  intros Hvisit Hsorted Hperm. apply sortStrings_is; [exact Hsorted|].
  unfold Go.keys. rewrite (Hvisit m). exact Hperm.
Qed.

Ltac sorted_names :=
  repeat (constructor; [|repeat constructor; vm_compute; reflexivity]);
  constructor.

(** The keys of a map, from the names that it is known to hold. *)
Lemma keys_of {A} (m : gmap string A) (names : list string) :
  NoDup names -> (forall k, is_Some (m !! k) <-> k ∈ names) ->
  (map_to_list m).*1 ≡ₚ names.
Proof.
  intros Hnodup Hkeys.
  apply NoDup_Permutation; [apply NoDup_fst_map_to_list | exact Hnodup |].
  intros k. rewrite <- Hkeys, list_elem_of_fmap. split.
  - intros [[k' v] [-> Hin]]. apply elem_of_map_to_list in Hin. eauto.
  - intros [v Hv]. exists (k, v). split; [reflexivity|].
    apply elem_of_map_to_list, Hv.
Qed.

(** A new architecture holds, after [addImageTypes], exactly the names of
    the listed image types. *)
Lemma addImageTypes_names p its rd n a :
  addImageTypes p its (newArchitecture rd n) = Go.Ok a ->
  NoDup (name <$> its) ->
  (map_to_list (imageTypes a)).*1 ≡ₚ name <$> its.
Proof.
  intros Hadd Hnodup. apply keys_of; [exact Hnodup|]. intros k.
  destruct (decide (k ∈ name <$> its)) as [Hin | Hout].
  - split; [auto|]. intros _.
    apply list_elem_of_fmap in Hin as [it [-> Hit]].
    rewrite (addImageTypes_new_types _ _ _ _ _ Hadd Hnodup Hit). eauto.
  - rewrite (addImageTypes_other_types _ _ _ _ _ Hadd Hout). simpl.
    rewrite lookup_empty.
    split; [intros [? ?]; discriminate | contradiction].
Qed.

(** An architecture of the catalogue, with its two image types. *)
Lemma catalogue_architecture (rd : distribution) (p : Platform)
    (commit container : imageType) (n : string)
    (visit : gmap string imageType -> list (string * imageType)) :
  (forall m, visit m ≡ₚ map_to_list m) ->
  (commit, container) = (scosRockyCommitImgType, scosRockyOCIImgType)
  \/ (commit, container) = (scosOECommitImgType, scosOEOCIImgType) ->
  exists a,
    addImageTypes p [commit; container] (newArchitecture rd n) = Go.Ok a
    /\ archName a = n /\ distro a = distroName rd /\ populated a
    /\ ListImageTypes visit a = ["ostree-commit"; "ostree-container"].
Proof.
  intros Hvisit Htypes.
  destruct (addImageTypes p [commit; container] (newArchitecture rd n))
    as [a | e | v] eqn:Hadd.
  - exists a. split; [reflexivity|].
    pose proof (populated_add _ _ _ _ (populated_fresh rd n) Hadd) as Hpop.
    destruct (addImageTypes_fields _ _ _ _ Hadd) as [Hname Hdistro].
    split; [exact Hname|]. split; [exact Hdistro|]. split; [exact Hpop|].
    unfold ListImageTypes. apply listing_is; [exact Hvisit|sorted_names|].
    destruct Htypes as [Heq | Heq]; injection Heq as -> ->;
      (rewrite (addImageTypes_names _ _ _ _ _ Hadd);
       [reflexivity | refine (bool_decide_unpack _ _); vm_compute; exact I]).
  - pose proof (addImageTypes_never_fails p [commit; container]
                  (newArchitecture rd n)) as Hfail.
    rewrite Hadd in Hfail. discriminate.
  - exfalso.
    destruct (proj2 (addImageTypes_succeeds p [commit; container]
                       (newArchitecture rd n))) as [a Ha];
      [|congruence].
    destruct Htypes as [Heq | Heq]; injection Heq as -> ->;
      (split; [refine (bool_decide_unpack _ _); vm_compute; exact I|]);
      intros al _; apply lookup_empty.
Qed.

(** The distribution that a constructor of the catalogue returns: the bare
    distribution with its two architectures added. *)
Lemma catalogue_arches (base : string) (version : Z)
    (visitArches : gmap string architecture
                   -> list (string * architecture))
    (visitTypes : gmap string imageType -> list (string * imageType)) :
  (forall m, visitArches m ≡ₚ map_to_list m) ->
  (forall m, visitTypes m ≡ₚ map_to_list m) ->
  forall build,
    build = newRockyDistro \/ build = newOEDistro ->
    exists x86 arm,
      build base version
      = Go.Ok (addArches (getDistro base version) [x86; arm])
      /\ archName x86 = ARCH_X86_64 /\ archName arm = ARCH_AARCH64
      /\ (forall a, a ∈ [x86; arm] ->
                    distro a = distroName (getDistro base version)
                    /\ populated a
                    /\ ListImageTypes visitTypes a
                       = ["ostree-commit"; "ostree-container"])
      /\ NoDup (archName <$> [x86; arm])
      /\ ListArches visitArches
           (addArches (getDistro base version) [x86; arm])
         = ["aarch64"; "x86_64"].
Proof.
  intros HvisitA HvisitT build Hbuild.
  set (rd := getDistro base version).
  assert (exists commit container,
             ((commit, container)
              = (scosRockyCommitImgType, scosRockyOCIImgType)
              \/ (commit, container)
                 = (scosOECommitImgType, scosOEOCIImgType))
             /\ build base version
                = (x86_64 ← addImageTypes (X86 true "smartx")
                               [commit; container]
                               (newArchitecture rd ARCH_X86_64);
                   aarch64 ← addImageTypes (Aarch64 "smartx")
                                [commit; container]
                                (newArchitecture rd ARCH_AARCH64);
                   Go.Ok (addArches rd [x86_64; aarch64])))
    as [commit [container [Htypes ->]]].
  { destruct Hbuild as [-> | ->]; eauto 6. }
  destruct (catalogue_architecture rd (X86 true "smartx") commit container
              ARCH_X86_64 visitTypes HvisitT Htypes)
    as [x86 [-> [Hx1 [Hx2 [Hx3 Hx4]]]]].
  destruct (catalogue_architecture rd (Aarch64 "smartx") commit container
              ARCH_AARCH64 visitTypes HvisitT Htypes)
    as [arm [-> [Ha1 [Ha2 [Ha3 Ha4]]]]].
  exists x86, arm. split; [reflexivity|].
  split; [exact Hx1|]. split; [exact Ha1|].
  assert (NoDup (archName <$> [x86; arm])) as Hnodup.
  { simpl. rewrite Hx1, Ha1.
    refine (bool_decide_unpack _ _). vm_compute. exact I. }
  split; [|split; [exact Hnodup|]].
  - intros a Hin. apply elem_of_cons in Hin as [-> | Hin]; [auto|].
    apply list_elem_of_singleton in Hin as ->. auto.
  - unfold ListArches. apply listing_is; [exact HvisitA|sorted_names|].
    unfold addArches. simpl. rewrite Hx1, Ha1.
    rewrite (getDistro_no_arches base version : arches rd = ∅).
    rewrite insert_empty.
    rewrite map_to_list_insert
      by (rewrite lookup_singleton_ne; [reflexivity|discriminate]).
    rewrite map_to_list_singleton. reflexivity.
Qed.

(** X7.  The two constructors of the catalogue return a distribution for
    every base and version, without a panic: it lists the architectures
    [aarch64] and [x86_64], and each of them is found by [GetArch], is
    filled through [addImageTypes] and lists the image types
    [ostree-commit] and [ostree-container]. *)
Theorem catalogue_is_built (base : string) (version : Z)
    (visitArches : gmap string architecture
                   -> list (string * architecture))
    (visitTypes : gmap string imageType -> list (string * imageType)) :
  (forall m, visitArches m ≡ₚ map_to_list m) ->
  (forall m, visitTypes m ≡ₚ map_to_list m) ->
  forall build,
    build = newRockyDistro \/ build = newOEDistro ->
    exists d,
      build base version = Go.Ok d
      /\ Name d = Name (getDistro base version)
      /\ ListArches visitArches d = ["aarch64"; "x86_64"]
      /\ forall n,
          n ∈ ListArches visitArches d ->
          exists a,
            GetArch d n = Go.Ok a
            /\ archName a = n /\ distro a = Name d /\ populated a
            /\ ListImageTypes visitTypes a
               = ["ostree-commit"; "ostree-container"].
Proof.
  intros HvisitA HvisitT build Hbuild.
  destruct (catalogue_arches base version visitArches visitTypes
              HvisitA HvisitT build Hbuild)
    as (x86 & arm & -> & Hx1 & Ha1 & Hfacts & Hnodup & Hlist).
  set (rd := getDistro base version) in *.
  exists (addArches rd [x86; arm]). split; [reflexivity|].
  split; [reflexivity|].
  assert (forall a, a ∈ [x86; arm] ->
                    GetArch (addArches rd [x86; arm]) (archName a)
                    = Go.Ok a) as Hget.
  { intros a Hin. unfold GetArch, addArches. cbn [arches].
    rewrite (addArches_new [x86; arm] _ a Hnodup Hin). reflexivity. }
  split; [exact Hlist|]. rewrite Hlist. intros n Hn.
  apply elem_of_cons in Hn as [-> | Hn].
  - exists arm. rewrite <- Ha1 at 1.
    rewrite Hget by (apply list_elem_of_further, list_elem_of_here).
    destruct (Hfacts arm) as (? & ? & ?);
      [apply list_elem_of_further, list_elem_of_here|]. auto.
  - apply list_elem_of_singleton in Hn as ->.
    exists x86. rewrite <- Hx1 at 1.
    rewrite Hget by apply list_elem_of_here.
    destruct (Hfacts x86) as (? & ? & ?); [apply list_elem_of_here|]. auto.
Qed.

End Registry.

(** * The catalogue on its own entries *)

Section RegistryRuns.

Import scos.

(** The [x86_64] architecture of the Rocky distribution is built, and
    lists its two image types. *)
Lemma rockyX86_built :
  exists a,
    rockyX86 = Go.Ok a
    /\ ListImageTypes map_to_list a = ["ostree-commit"; "ostree-container"].
Proof.
  destruct (catalogue_architecture (getDistro "rocky" 8) (X86 true "smartx")
              scosRockyCommitImgType scosRockyOCIImgType ARCH_X86_64
              map_to_list (fun m => Permutation_refl _)
              (or_introl eq_refl))
    as (a & Ha & _ & _ & _ & Hlist).
  exists a. split; [exact Ha | exact Hlist].
Qed.

Lemma addImageTypes_registers_rocky :
  match rockyX86 with
  | Go.Ok a' =>
      archName a' = "x86_64"
      /\ GetImageType a' "ostree-commit"
         = Go.Ok (bindTo (newArchitecture (getDistro "rocky" 8) ARCH_X86_64)
                    (X86 true "smartx") scosRockyCommitImgType)
      /\ imageTypeAliases a' !! "scos-rocky-container"
         = Some "ostree-container"
  | _ => False
  end.
Proof.
  destruct rockyX86_built as (a' & Hrocky & _). rewrite Hrocky.
  destruct (addImageTypes_registers _ _ _ _ Hrocky)
    as [Hname [_ [_ [Hget [Halias _]]]]].
  split; [exact Hname|]. split.
  - apply (Hget ltac:(refine (bool_decide_unpack _ _); vm_compute;
                      exact I) scosRockyCommitImgType).
    apply list_elem_of_here.
  - apply (Halias scosRockyOCIImgType).
    + apply list_elem_of_further, list_elem_of_here.
    + apply list_elem_of_here.
Defined.

Lemma populated_image_types_bound_rocky :
  match rockyX86 with
  | Go.Ok a =>
      boundCopies a
      /\ forall n t,
          GetImageType a n = Go.Ok t ->
          arch t = Some (archName a)
          /\ (name t = n \/ imageTypeAliases a !! n = Some (name t))
  | _ => False
  end.
Proof.
  destruct rockyX86_built as (a & Hrocky & _). rewrite Hrocky.
  apply populated_image_types_bound.
  exact (populated_add _ _ _ _ (populated_fresh _ _) Hrocky).
Defined.

Lemma ListImageTypes_sorted_rocky :
  match rockyX86 with
  | Go.Ok a =>
      ListImageTypes map_to_list a = ["ostree-commit"; "ostree-container"]
      /\ NoDup (ListImageTypes map_to_list a)
      /\ exists t, GetImageType a "ostree-container" = Go.Ok t
  | _ => False
  end.
Proof.
  destruct rockyX86_built as (a & -> & Hlist).
  destruct (ListImageTypes_sorted map_to_list map_to_list a
              (fun m => Permutation_refl _) (fun m => Permutation_refl _))
    as [_ [Hnodup [_ [_ Hget]]]].
  split; [exact Hlist|]. split; [exact Hnodup|].
  destruct (Hget "ostree-container") as [t [Ht _]];
    [rewrite Hlist; apply list_elem_of_further, list_elem_of_here|].
  exists t. exact Ht.
Defined.

Lemma ListArches_sorted_rocky :
  match NewRocky8 with
  | Go.Ok d =>
      ListArches map_to_list d = ["aarch64"; "x86_64"]
      /\ NoDup (ListArches map_to_list d)
      /\ GetArch d "s390x" = Go.Err (InvalidArchitecture "s390x")
  | _ => False
  end.
Proof.
  destruct (catalogue_arches "rocky" 8 map_to_list map_to_list
              (fun m => Permutation_refl _) (fun m => Permutation_refl _)
              newRockyDistro (or_introl eq_refl))
    as (x86 & arm & Hd & _ & _ & _ & _ & Hlist).
  unfold NewRocky8. rewrite Hd.
  destruct (ListArches_sorted map_to_list map_to_list
              (addArches (getDistro "rocky" 8) [x86; arm])
              (fun m => Permutation_refl _) (fun m => Permutation_refl _))
    as [_ [Hnodup [_ [_ Hmissing]]]].
  split; [exact Hlist|]. split; [exact Hnodup|].
  apply Hmissing. rewrite Hlist.
  intros [Hc | [Hc | Hc]%elem_of_cons]%elem_of_cons;
    [discriminate | discriminate | inversion Hc].
Defined.

Lemma addArches_then_GetArch_rocky :
  let rd := getDistro "rocky" 8 in
  let x86 := newArchitecture rd ARCH_X86_64 in
  let arm := newArchitecture rd ARCH_AARCH64 in
  GetArch (addArches rd [x86; arm]) "aarch64" = Go.Ok arm
  /\ GetArch (addArches rd [x86; arm]) "riscv64" = GetArch rd "riscv64".
Proof.
  intros rd x86 arm.
  destruct (addArches_then_GetArch rd [x86; arm]) as [Hnew [Hother _]].
  { refine (bool_decide_unpack _ _). vm_compute. exact I. }
  split.
  - apply (Hnew arm). apply list_elem_of_further, list_elem_of_here.
  - apply Hother. vm_compute.
    intros [Hc | [Hc | Hc]%elem_of_cons]%elem_of_cons;
      [discriminate | discriminate | inversion Hc].
Defined.

Lemma catalogue_is_built_rocky :
  exists d,
    newRockyDistro "rocky" 8 = Go.Ok d
    /\ Name d = "scos-rocky-8"
    /\ ListArches map_to_list d = ["aarch64"; "x86_64"].
Proof.
  destruct (catalogue_is_built "rocky" 8 map_to_list map_to_list
              (fun m => Permutation_refl _) (fun m => Permutation_refl _)
              newRockyDistro (or_introl eq_refl))
    as [d [Hd [Hname [Hlist _]]]].
  exists d. split; [exact Hd|]. split; [|exact Hlist].
  rewrite Hname. vm_compute. reflexivity.
Defined.

End RegistryRuns.

(** * The image size, once more *)

Section ImageSizeBounds.

Context `{BA : blueprint.API} `{DA : disk.API} `{IM : !rhel8.Imports}.
Import rhel8.

Lemma wrap64_range n : common.is_uint64 (common.wrap64 n).
Proof.
  unfold common.is_uint64, common.wrap64, common.uint64_modulus.
  apply Z.mod_pos_bound. lia.
Qed.

Lemma wrap64_aligned n :
  (common.wrap64 (n * common.MebiByte) mod common.MebiByte = 0)%Z.
Proof.
  unfold common.wrap64, common.uint64_modulus, common.MebiByte.
  change (2 ^ 64)%Z with (17592186044416 * 1048576)%Z.
  rewrite Z.mul_mod_distr_r by lia. apply Z.mod_mul. lia.
Qed.

(** The size after the rounding step of [Size], before the default. *)
Lemma Size_cases (t : imageType) (size : Z) :
  (Size t size = defaultSize t
   /\ (size = 0%Z
       \/ name t = "vhd" /\ (size mod common.MebiByte <> 0)%Z
          /\ common.wrap64 ((size / common.MebiByte + 1) * common.MebiByte)
             = 0%Z))
  \/ (Size t size = size /\ size <> 0%Z
      /\ (name t <> "vhd" \/ (size mod common.MebiByte = 0)%Z))
  \/ (Size t size
      = common.wrap64 ((size / common.MebiByte + 1) * common.MebiByte)
      /\ Size t size <> 0%Z /\ name t = "vhd"
      /\ (size mod common.MebiByte <> 0)%Z).
Proof.
  unfold Size.
  destruct (String.eqb_spec (name t) "vhd") as [Hvhd | Hvhd];
    destruct (Z.eqb_spec (size mod common.MebiByte) 0) as [Hmod | Hmod];
    simpl.
  - destruct (Z.eqb_spec size 0); [left | right; left]; auto.
  - destruct (Z.eqb_spec
                (common.wrap64
                   ((size / common.MebiByte + 1) * common.MebiByte)) 0)
      as [Hz | Hz]; [left | right; right]; auto.
  - destruct (Z.eqb_spec size 0); [left | right; left]; auto.
  - destruct (Z.eqb_spec size 0); [left | right; left]; auto.
Qed.

(** X8.  [Size] stays within the 64 bits of its result when the caller
    size and the default size of the image type do, and it returns 0 only
    for an image type whose default size is 0. *)
Theorem Size_in_range (t : imageType) (size : Z) :
  common.is_uint64 size -> common.is_uint64 (defaultSize t) ->
  common.is_uint64 (Size t size)
  /\ (Size t size = 0%Z -> defaultSize t = 0%Z).
Proof.
  intros Hsize Hdefault.
  destruct (Size_cases t size)
    as [[-> _] | [[-> [Hnz _]] | [Heq [Hnz _]]]].
  - auto.
  - split; [exact Hsize | intros; contradiction].
  - split; [rewrite Heq; apply wrap64_range | intros; contradiction].
Qed.

(** X9.  Resolving a size twice is resolving it once, for every image
    type other than VHD, and for VHD when the default size of the type is
    a multiple of 1 MiB; the size resolved for such a VHD type is always
    a multiple of 1 MiB, also when the rounding wraps around. *)
Theorem Size_idempotent (t : imageType) (size : Z) :
  (name t = "vhd" -> (defaultSize t mod common.MebiByte = 0)%Z) ->
  Size t (Size t size) = Size t size
  /\ (name t = "vhd" -> (Size t size mod common.MebiByte = 0)%Z).
Proof.
  intros Hdefault.
  assert (name t = "vhd" -> (Size t size mod common.MebiByte = 0)%Z)
    as Haligned.
  { intros Hvhd.
    destruct (Size_cases t size)
      as [[-> _] | [[-> [_ [Hn | Hmod]]] | [-> _]]].
    - exact (Hdefault Hvhd).
    - contradiction.
    - exact Hmod.
    - apply wrap64_aligned. }
  split; [|exact Haligned].
  destruct (Size_cases t (Size t size))
    as [[Heq Hwhy] | [[Heq _] | [_ [_ [Hvhd Hmod]]]]].
  - rewrite Heq. destruct Hwhy as [Hzero | [Hvhd [Hmod _]]].
    + destruct (Size_cases t size)
        as [[Hd _] | [[Hs [Hnz _]] | [_ [Hnz _]]]]; congruence.
    + destruct (Hmod (Haligned Hvhd)).
  - exact Heq.
  - destruct (Hmod (Haligned Hvhd)).
Qed.

End ImageSizeBounds.

(** * The package sets, once more *)

Section MergedSets.

Context `{BA : blueprint.API} `{BM : !blueprint.Methods}
        `{DA : disk.API} `{IM : !rhel8.Imports}.
Import rhel8.

Lemma Append_includeOnly_nil set :
  rpmmd.Append set (includeOnly []) = set.
Proof.
  destruct set. unfold rpmmd.Append, includeOnly. simpl.
  rewrite !app_nil_r. reflexivity.
Qed.

(** The merged sets, key by key. *)
Lemma mergedPackageSets_entries (t : imageType) bp m :
  mergedPackageSets t bp = Go.Ok m ->
  forall k,
    m !! k
    = if decide (k = blueprintPkgsKey)
      then Some (includeOnly (blueprintPackages t bp))
      else if decide (is_Some (packageSets t !! k) \/ k = osPkgsKey)
      then Some (rpmmd.Append (getPackages t k)
                   (includeOnly (appended t bp k)))
      else None.
Proof.
  intros Hm k.
  pose proof (mergedPackageSets_Ok_build t bp m Hm) as Hbuild.
  unfold mergedPackageSets in Hm.
  rewrite (bool_decide_eq_true_2 _ Hbuild) in Hm.
  injection Hm as <-.
  set (m0 := if bool_decide (is_Some (packageSets t !! osPkgsKey))
             then default rpmmd.empty <$> packageSets t
             else <[ osPkgsKey := rpmmd.empty ]>
                    (default rpmmd.empty <$> packageSets t)).
  assert (forall j, j <> osPkgsKey ->
                    m0 !! j = default rpmmd.empty <$> packageSets t !! j)
    as Hm0.
  { intros j Hj. unfold m0. case_bool_decide.
    - apply lookup_fmap.
    - rewrite lookup_insert_ne by done. apply lookup_fmap. }
  assert (m0 !! osPkgsKey = Some (getPackages t osPkgsKey)) as Hos.
  { unfold m0. case_bool_decide as Hdecl.
    - apply declared_lookup, Hdecl.
    - rewrite lookup_insert_eq.
      destruct (undeclared_lookup t osPkgsKey) as [_ ->]; [|done].
      destruct (packageSets t !! osPkgsKey) eqn:E; [|done].
      exfalso. apply Hdecl. eauto. }
  assert (m0 !! buildPkgsKey = Some (getPackages t buildPkgsKey)) as Hb.
  { rewrite Hm0 by done. rewrite <- lookup_fmap.
    apply declared_lookup, Hbuild. }
  set (m1 := if bool_decide (0 < length (blueprint.Containers bp))
             then _ else m0).
  assert (m1 !! osPkgsKey = Some (getPackages t osPkgsKey)) as Hos1.
  { unfold m1. case_bool_decide; [|exact Hos].
    rewrite lookup_insert_ne by done. exact Hos. }
  destruct (decide (k = blueprintPkgsKey)) as [-> | Hkbp].
  { rewrite lookup_insert_ne by done. apply lookup_insert_eq. }
  unfold appended.
  destruct (decide (k = osPkgsKey)) as [-> | Hkos].
  { rewrite lookup_insert_eq, lookup_insert_ne, Hos1 by done.
    rewrite decide_True by auto. reflexivity. }
  rewrite !lookup_insert_ne by done.
  rewrite (bool_decide_eq_false_2 (k = osPkgsKey)) by done.
  rewrite app_nil_r. unfold m1.
  destruct (decide (k = buildPkgsKey)) as [-> | Hkb].
  - rewrite decide_True by auto.
    rewrite (bool_decide_eq_true_2 (buildPkgsKey = buildPkgsKey)) by done.
    simpl. case_bool_decide.
    + rewrite lookup_insert_eq, Hb. simpl.
      destruct (rpmOstree t); reflexivity.
    + rewrite Hb, Append_includeOnly_nil. reflexivity.
  - rewrite (bool_decide_eq_false_2 (k = buildPkgsKey)) by done. simpl.
    rewrite Append_includeOnly_nil.
    assert ((if bool_decide (0 < length (blueprint.Containers bp))
             then <[ buildPkgsKey :=
                       rpmmd.Append
                         (default rpmmd.empty (m0 !! buildPkgsKey))
                         (if rpmOstree t
                          then rpmmd.Append (includeOnly ["skopeo"])
                                 (includeOnly ["python3-pytoml"])
                          else includeOnly ["skopeo"]) ]> m0
             else m0) !! k = m0 !! k) as ->.
    { case_bool_decide; [|reflexivity].
      apply lookup_insert_ne. congruence. }
    rewrite Hm0 by done.
    destruct (packageSets t !! k) as [getter|] eqn:Hk.
    + rewrite decide_True by eauto. simpl. unfold getPackages.
      rewrite Hk. destruct getter; reflexivity.
    + rewrite decide_False; [reflexivity|].
      intros [[? ?] | ?]; [discriminate | contradiction].
Qed.

(** The older path returns as soon as the image type declares a build
    package set. *)
Lemma mergedPackageSets_returns (t : imageType) (bp : blueprint.Blueprint) :
  is_Some (packageSets t !! buildPkgsKey) ->
  exists m, mergedPackageSets t bp = Go.Ok m.
Proof.
  intros Hbuild. unfold mergedPackageSets.
  rewrite (bool_decide_eq_true_2 _ Hbuild). eauto.
Qed.

(** X10.  The sets that the older path of [PackageSets] merges are those
    that the image type declares, with the OS set and the blueprint set;
    the resolution never changes the exclude list or the repositories of
    a declared set, and the blueprint set has no exclude list and no
    repository, whatever the image type declares under its name. *)
Theorem mergedPackageSets_keys_and_excludes (t : imageType)
    (bp : blueprint.Blueprint) (m : gmap string rpmmd.PackageSet) :
  mergedPackageSets t bp = Go.Ok m ->
  (forall k, is_Some (m !! k)
             <-> is_Some (packageSets t !! k)
                 \/ k = osPkgsKey \/ k = blueprintPkgsKey)
  /\ (forall k set,
        k <> blueprintPkgsKey -> m !! k = Some set ->
        rpmmd.Exclude set = rpmmd.Exclude (getPackages t k)
        /\ rpmmd.Repositories set = rpmmd.Repositories (getPackages t k))
  /\ (exists set,
        m !! blueprintPkgsKey = Some set
        /\ rpmmd.Exclude set = [] /\ rpmmd.Repositories set = []).
Proof.
  intros Hm. pose proof (mergedPackageSets_entries t bp m Hm) as Hentries.
  split; [|split].
  - intros k. rewrite (Hentries k).
    destruct (decide (k = blueprintPkgsKey)) as [-> | Hk].
    + split; eauto.
    + destruct (decide (is_Some (packageSets t !! k) \/ k = osPkgsKey))
        as [Hin | Hout].
      * split; [tauto | eauto].
      * split; [intros [? ?]; discriminate | tauto].
  - intros k set Hk Hlook. rewrite (Hentries k) in Hlook.
    rewrite decide_False in Hlook by exact Hk.
    destruct (decide (is_Some (packageSets t !! k) \/ k = osPkgsKey));
      [|discriminate].
    injection Hlook as <-. simpl. rewrite !app_nil_r. auto.
  - exists (includeOnly (blueprintPackages t bp)).
    rewrite (Hentries blueprintPkgsKey), decide_True by reflexivity. auto.
Qed.

End MergedSets.

Section Repositories.

Context `{BA : blueprint.API} `{BM : !blueprint.Methods}
        `{DA : disk.API} `{IM : !rhel8.Imports}.
Import rhel8.

Local Abbreviation setOf sets k := (default rpmmd.empty (sets !! k)).

Local Abbreviation attachTo repo :=
  (fun (sets : gmap string rpmmd.PackageSet) (psName : string) =>
     <[ psName :=
          {| rpmmd.Include := rpmmd.Include (setOf sets psName);
             rpmmd.Exclude := rpmmd.Exclude (setOf sets psName);
             rpmmd.Repositories :=
               rpmmd.Repositories (setOf sets psName) ++ [repo] |} ]> sets).

Lemma attachRepo_global sets globals repo :
  rpmmd.RepoPackageSets repo = [] ->
  attachRepo (sets, globals) repo = (sets, globals ++ [repo]).
Proof.
  intros Hnames. unfold attachRepo. rewrite Hnames.
  rewrite bool_decide_eq_false_2 by (simpl; lia). reflexivity.
Qed.

Lemma attachRepo_scoped sets globals repo :
  rpmmd.RepoPackageSets repo <> [] ->
  attachRepo (sets, globals) repo
  = (fold_left (attachTo repo) (rpmmd.RepoPackageSets repo) sets, globals).
Proof.
  intros Hnames. unfold attachRepo.
  rewrite bool_decide_eq_true_2; [reflexivity|].
  destruct (rpmmd.RepoPackageSets repo); [contradiction | simpl; lia].
Qed.

(** The inner loop of [attachRepo], over the names that a repository
    lists. *)
Lemma attach_names (repo : rpmmd.RepoConfig) (names : list string) :
  forall (sets : gmap string rpmmd.PackageSet) k,
    rpmmd.Include (setOf (fold_left (attachTo repo) names sets) k)
    = rpmmd.Include (setOf sets k)
    /\ rpmmd.Exclude (setOf (fold_left (attachTo repo) names sets) k)
       = rpmmd.Exclude (setOf sets k)
    /\ rpmmd.Repositories (setOf (fold_left (attachTo repo) names sets) k)
       = rpmmd.Repositories (setOf sets k)
         ++ replicate (length (filter (eq k) names)) repo
    /\ (is_Some (fold_left (attachTo repo) names sets !! k)
        <-> is_Some (sets !! k) \/ k ∈ names).
Proof.
  induction names as [|p rest IH]; intros sets k.
  - simpl. rewrite app_nil_r. repeat split; try tauto.
    intros [? | Hin]; [assumption | apply elem_of_nil in Hin; tauto].
  - cbn [fold_left].
    destruct (IH (attachTo repo sets p) k) as [Hinc [Hexc [Hrep Hsome]]].
    rewrite Hinc, Hexc, Hrep, Hsome. clear Hinc Hexc Hrep Hsome IH.
    rewrite filter_cons. destruct (decide (k = p)) as [-> | Hne].
    + rewrite lookup_insert_eq. simpl. rewrite <- app_assoc.
      repeat split; try tauto.
      * intros _. right. apply list_elem_of_here.
      * intros _. left. eauto.
    + rewrite lookup_insert_ne by congruence.
      repeat split; try tauto.
      * intros [? | ?]; [tauto | right; apply list_elem_of_further; tauto].
      * intros [? | [? | ?]%elem_of_cons]; [tauto | congruence | tauto].
Qed.

Lemma attachRepo_fold (repos : list rpmmd.RepoConfig) :
  forall (sets : gmap string rpmmd.PackageSet) globals k,
    snd (fold_left attachRepo repos (sets, globals))
    = globals ++ filter (fun repo => rpmmd.RepoPackageSets repo = []) repos
    /\ rpmmd.Include
         (setOf (fst (fold_left attachRepo repos (sets, globals))) k)
       = rpmmd.Include (setOf sets k)
    /\ rpmmd.Exclude
         (setOf (fst (fold_left attachRepo repos (sets, globals))) k)
       = rpmmd.Exclude (setOf sets k)
    /\ rpmmd.Repositories
         (setOf (fst (fold_left attachRepo repos (sets, globals))) k)
       = rpmmd.Repositories (setOf sets k) ++ attachedTo k repos
    /\ (is_Some (fst (fold_left attachRepo repos (sets, globals)) !! k)
        <-> is_Some (sets !! k)
            \/ exists repo, repo ∈ repos /\ k ∈ rpmmd.RepoPackageSets repo).
Proof.
  induction repos as [|repo rest IH]; intros sets globals k.
  - simpl. rewrite !app_nil_r. repeat split; try tauto.
    intros [? | [repo [Hin _]]]; [assumption|].
    apply elem_of_nil in Hin. tauto.
  - cbn [fold_left].
    destruct (decide (rpmmd.RepoPackageSets repo = [])) as [Hnames | Hnames].
    + rewrite (attachRepo_global _ _ _ Hnames).
      destruct (IH sets (globals ++ [repo]) k)
        as [Hg [Hinc [Hexc [Hrep Hsome]]]].
      rewrite Hg, Hinc, Hexc, Hrep, Hsome.
      rewrite filter_cons, decide_True by exact Hnames.
      rewrite <- app_assoc. unfold attachedTo. simpl. rewrite Hnames.
      simpl. repeat split; try tauto.
      * intros [? | [r [Hr Hk]]]; [tauto|]. right. exists r.
        split; [apply list_elem_of_further|]; assumption.
      * intros [? | [r [[-> | Hr]%elem_of_cons Hk]]]; [tauto | | eauto].
        rewrite Hnames in Hk. apply elem_of_nil in Hk. tauto.
    + rewrite (attachRepo_scoped _ _ _ Hnames).
      destruct (attach_names repo (rpmmd.RepoPackageSets repo) sets k)
        as [Hinc' [Hexc' [Hrep' Hsome']]].
      destruct (IH (fold_left (attachTo repo)
                      (rpmmd.RepoPackageSets repo) sets) globals k)
        as [Hg [Hinc [Hexc [Hrep Hsome]]]].
      rewrite Hg, Hinc, Hexc, Hrep, Hsome.
      rewrite Hinc', Hexc', Hrep', Hsome'.
      rewrite filter_cons, decide_False by exact Hnames.
      unfold attachedTo. simpl. rewrite <- app_assoc.
      repeat split; try tauto.
      * intros [[? | Hk] | [r [Hr Hk]]]; [tauto | |].
        -- right. exists repo.
           split; [apply list_elem_of_here | exact Hk].
        -- right. exists r. split; [apply list_elem_of_further|]; tauto.
      * intros [? | [r [[-> | Hr]%elem_of_cons Hk]]]; [tauto | tauto |].
        right. eauto.
Qed.

Lemma replicate_filter_one (k : string) (names : list string)
    (repo : rpmmd.RepoConfig) :
  NoDup names ->
  replicate (length (filter (eq k) names)) repo
  = if decide (k ∈ names) then [repo] else [].
Proof.
  induction 1 as [|p names Hp Hnodup IH]; [reflexivity|].
  rewrite filter_cons. destruct (decide (k = p)) as [-> | Hne].
  - rewrite decide_True by apply list_elem_of_here. simpl.
    rewrite IH, decide_False by exact Hp. reflexivity.
  - rewrite IH. destruct (decide (k ∈ names)) as [Hin | Hout].
    + rewrite decide_True by (apply list_elem_of_further, Hin).
      reflexivity.
    + rewrite decide_False; [reflexivity|].
      intros [? | ?]%elem_of_cons; congruence.
Qed.

Lemma attachedTo_cons k repo rest :
  attachedTo k (repo :: rest)
  = replicate (length (filter (eq k) (rpmmd.RepoPackageSets repo))) repo
    ++ attachedTo k rest.
Proof. reflexivity. Qed.

Lemma attachedTo_once (repos : list rpmmd.RepoConfig) :
  (forall repo, repo ∈ repos -> NoDup (rpmmd.RepoPackageSets repo)) ->
  forall k,
    attachedTo k repos
    = filter (fun repo => k ∈ rpmmd.RepoPackageSets repo) repos.
Proof.
  intros Hnodup k. induction repos as [|repo rest IH]; [reflexivity|].
  rewrite attachedTo_cons, IH
    by (intros r Hr; apply Hnodup, list_elem_of_further, Hr).
  rewrite replicate_filter_one by apply Hnodup, list_elem_of_here.
  rewrite filter_cons.
  destruct (decide (k ∈ rpmmd.RepoPackageSets repo)); reflexivity.
Qed.

(** X11.  The loop of [PackageSetsNew] over the repositories sends the
    repositories that name no package set to the global list, in their
    order, and appends every other repository, in order, to the
    repositories of the sets that it names, once for each time it names
    them (a set that did not exist is created empty); the include and
    exclude lists of all sets are left as they are.  When no repository
    names a set twice, a set receives exactly the repositories that name
    it. *)
Theorem repositories_by_scope (repos : list rpmmd.RepoConfig)
    (sets : gmap string rpmmd.PackageSet) :
  let r := fold_left attachRepo repos (sets, []) in
  snd r = filter (fun repo => rpmmd.RepoPackageSets repo = []) repos
  /\ (forall k,
        rpmmd.Include (setOf (fst r) k) = rpmmd.Include (setOf sets k)
        /\ rpmmd.Exclude (setOf (fst r) k) = rpmmd.Exclude (setOf sets k)
        /\ rpmmd.Repositories (setOf (fst r) k)
           = rpmmd.Repositories (setOf sets k) ++ attachedTo k repos
        /\ (is_Some (fst r !! k)
            <-> is_Some (sets !! k)
                \/ exists repo,
                    repo ∈ repos /\ k ∈ rpmmd.RepoPackageSets repo))
  /\ ((forall repo, repo ∈ repos -> NoDup (rpmmd.RepoPackageSets repo)) ->
      forall k,
        attachedTo k repos
        = filter (fun repo => k ∈ rpmmd.RepoPackageSets repo) repos).
Proof.
  cbv zeta. split; [|split].
  - exact (proj1 (attachRepo_fold repos sets [] "")).
  - intros k. exact (proj2 (attachRepo_fold repos sets [] k)).
  - intros Hnodup k. apply attachedTo_once, Hnodup.
Qed.

End Repositories.

(** * Sizes and package sets on concrete requests *)

Section ResolverRuns.

#[local] Existing Instances
  sample.blueprintAPI sample.blueprintMethods sample.diskAPI
  sample.imports.
Import rhel8.

Lemma Size_in_range_run :
  common.is_uint64 (Size sample.vhdImgType (2 ^ 64 - 1))
  /\ (Size sample.vhdImgType (2 ^ 64 - 1) = 0%Z ->
      defaultSize sample.vhdImgType = 0%Z).
Proof.
  apply (Size_in_range sample.vhdImgType (2 ^ 64 - 1));
    unfold common.is_uint64, common.uint64_modulus; simpl; lia.
Defined.

Lemma Size_idempotent_run :
  Size sample.vhdImgType (Size sample.vhdImgType 1500000)
  = Size sample.vhdImgType 1500000
  /\ (name sample.vhdImgType = "vhd" ->
      (Size sample.vhdImgType 1500000 mod common.MebiByte = 0)%Z).
Proof.
  apply (Size_idempotent sample.vhdImgType 1500000).
  intros _. reflexivity.
Defined.

Lemma mergedPackageSets_keys_and_excludes_run :
  exists m,
    mergedPackageSets sample.vhdImgType (sample.emptyBlueprint None)
    = Go.Ok m
    /\ is_Some (m !! blueprintPkgsKey)
    /\ ~ is_Some (m !! "installer").
Proof.
  destruct (mergedPackageSets_returns sample.vhdImgType
              (sample.emptyBlueprint None)) as [m Hm];
    [vm_compute; eauto|].
  exists m. split; [exact Hm|].
  destruct (mergedPackageSets_keys_and_excludes _ _ _ Hm) as [Hkeys _].
  split.
  - apply Hkeys. auto.
  - intros Hin. apply Hkeys in Hin as [[getter Hg] | [Hc | Hc]];
      [vm_compute in Hg | |]; discriminate.
Defined.

End ResolverRuns.

(** * The assembly of the manifest, once more *)

Section Assembly.

Context `{BA : blueprint.API} `{BM : !blueprint.Methods}
        `{DA : disk.API} `{IM : !rhel8.Imports} `{DP : !disk.Policy}.
Import rhel8.

Ltac rule_cases := repeat case_match; discriminate.

Lemma manifestOptions_checksum_set (t : imageType) o :
  rpmOstree t && bootISO t = true ->
  String.eqb
    (distro.FetchChecksum (distro.OSTree (manifestOptions t o))) ""
  = false.
Proof.
  intros Hiso. unfold manifestOptions. simpl. rewrite Hiso. simpl.
  destruct (String.eqb (distro.FetchChecksum (distro.OSTree o)) "")
    eqn:Hsum; [reflexivity | exact Hsum].
Qed.

(** X12.  The options that [PackageSetsNew] hands to the manifest keep
    the size, the two URLs and the RHSM flag of the request and carry the
    OSTree reference of the image type; their checksum is that of the
    request, except that an OSTree installer type with no checksum gets
    the dummy one.  So the validation inside [PackageSetsNew] never fails
    for the missing commit of a boot ISO. *)
Theorem manifestOptions_dummy_checksum (t : imageType)
    (o : distro.ImageOptions) (c : blueprint.Customizations)
    (cs : list container.Spec) :
  let o' := manifestOptions t o in
  distro.Size o' = distro.Size o
  /\ distro.URL (distro.OSTree o') = distro.URL (distro.OSTree o)
  /\ distro.ContentURL (distro.OSTree o')
     = distro.ContentURL (distro.OSTree o)
  /\ distro.RHSM (distro.OSTree o') = distro.RHSM (distro.OSTree o)
  /\ distro.ImageRef (distro.OSTree o') = OSTreeRef t
  /\ distro.FetchChecksum (distro.OSTree o')
     = (if rpmOstree t && bootISO t
           && String.eqb (distro.FetchChecksum (distro.OSTree o)) ""
        then fakeChecksum
        else distro.FetchChecksum (distro.OSTree o))
  /\ (rpmOstree t && bootISO t = true ->
      distro.FetchChecksum (distro.OSTree o') <> "")
  /\ forall n, checkOptions t c o' cs <> Some (BootISORequiresURL n).
Proof.
  cbv zeta. repeat split.
  - intros Hiso. apply String.eqb_neq.
    exact (manifestOptions_checksum_set t o Hiso).
  - intros n Hfirst. apply firstError_Some in Hfirst. simpl in Hfirst.
    destruct Hfirst as [H | [H | [H | [H | [H | [H | [H | []]]]]]]];
      revert H.
    + unfold containersRule. rule_cases.
    + unfold bootISORule.
      destruct (bootISO t && rpmOstree t) eqn:Hiso; [|discriminate].
      rewrite andb_comm in Hiso.
      rewrite (manifestOptions_checksum_set t o Hiso).
      unfold simplifiedInstallerRule, installerRule. rule_cases.
    + unfold rawImageRule. rule_cases.
    + unfold kernelRule. rule_cases.
    + unfold ostreeMountpointsRule. rule_cases.
    + unfold mountpointPolicyRule. rule_cases.
    + unfold openSCAPRule. rule_cases.
Qed.

(** X13.  A request that [checkOptions] rejects gets no manifest: on the
    older path [Manifest] returns the error of [checkOptions] before the
    pipelines are built, and on the path of the image constructors
    [initializeManifest] returns it before the image constructor is
    called, so that [Manifest] returns it as well when the empty
    blueprint initialises. *)
Theorem validation_comes_first (t : imageType)
    (c : blueprint.Customizations) (o : distro.ImageOptions)
    (repos : list rpmmd.RepoConfig)
    (specs : list (string * list PackageSpec))
    (cs : list container.Spec) (seed : Z) (e : error) :
  checkOptions t c o cs = Some e ->
  (forall bp sets,
      blueprint.Customs bp = c ->
      initializeManifest t bp o repos sets cs seed = Go.Err e)
  /\ (image t = None -> Manifest t c o repos specs cs seed = Go.Err e)
  /\ (is_Some (image t) ->
      fst (blueprint.Initialize
             {| blueprint.Name := "empty blueprint";
                blueprint.Payload := blueprint.emptyPayload;
                blueprint.Containers := [];
                blueprint.Customs := blueprint.nilCustomizations |})
      = None ->
      Manifest t c o repos specs cs seed = Go.Err e).
Proof.
  intros Hcheck. split; [|split].
  - intros bp sets Hbp. unfold initializeManifest.
    rewrite Hbp, Hcheck. reflexivity.
  - intros Himage. unfold Manifest. rewrite Himage, Hcheck. reflexivity.
  - intros [build Himage] Hinit. unfold Manifest. rewrite Himage.
    unfold ManifestNew.
    destruct (blueprint.Initialize _) as [[err|] bp]; [discriminate|].
    unfold initializeManifest. simpl. rewrite Hcheck. reflexivity.
Qed.

Lemma flattenSpecs_from (specs : list (string * list PackageSpec)) :
  forall acc,
    fold_left (fun all entry => all ++ snd entry) specs acc
    = acc ++ concat (specs.*2).
Proof.
  induction specs as [|[k l] specs IH]; intros acc; simpl.
  - rewrite app_nil_r. reflexivity.
  - rewrite IH, <- app_assoc. reflexivity.
Qed.

Lemma concat_snd_perm (l l' : list (string * list PackageSpec)) :
  l ≡ₚ l' -> concat (l.*2) ≡ₚ concat (l'.*2).
Proof.
  induction 1 as [|[k x] l l' _ IH|[k x] [k' y] l|l l' l'' _ IH _ IH'];
    simpl.
  - reflexivity.
  - rewrite IH. reflexivity.
  - rewrite !app_assoc. apply Permutation_app_tail, Permutation_app_comm.
  - rewrite IH. exact IH'.
Qed.

(** X14.  The package specs of the sources are the lists of all the
    package sets, one after the other in the order of the visit: each
    spec is there as often as the sets hold it, and another order of the
    visit only permutes them.  The inline data has at most one entry,
    the root certificates of the FDO block when they are set. *)
Theorem sources_arguments (specs specs' : list (string * list PackageSpec))
    (c : blueprint.Customizations) :
  flattenSpecs specs = concat (specs.*2)
  /\ (forall spec,
        spec ∈ flattenSpecs specs
        <-> exists k l, (k, l) ∈ specs /\ spec ∈ l)
  /\ (specs ≡ₚ specs' -> flattenSpecs specs ≡ₚ flattenSpecs specs')
  /\ inlineSources c
     = match blueprint.GetFDO c with
       | Some fdo =>
           if String.eqb (blueprint.DiunPubKeyRootCerts fdo) "" then []
           else [blueprint.DiunPubKeyRootCerts fdo]
       | None => []
       end
  /\ length (inlineSources c) <= 1
  /\ (forall data, data ∈ inlineSources c -> data <> "").
Proof.
  assert (forall l, flattenSpecs l = concat (l.*2)) as Hflat.
  { intros l. unfold flattenSpecs. apply (flattenSpecs_from l []). }
  assert (inlineSources c
          = match blueprint.GetFDO c with
            | Some fdo =>
                if String.eqb (blueprint.DiunPubKeyRootCerts fdo) ""
                then [] else [blueprint.DiunPubKeyRootCerts fdo]
            | None => []
            end) as Hinline.
  { unfold inlineSources, nonEmpty.
    destruct (blueprint.GetFDO c) as [fdo|]; [|reflexivity].
    destruct (String.eqb (blueprint.DiunPubKeyRootCerts fdo) "");
      reflexivity. }
  split; [apply Hflat|]. split; [|split; [|split; [exact Hinline|split]]].
  - intros spec. rewrite Hflat, list_elem_of_In, in_concat. split.
    + intros [l [Hl Hspec]]. apply list_elem_of_In in Hl, Hspec.
      apply list_elem_of_fmap in Hl as [[k l'] [-> Hin]]. eauto.
    + intros [k [l [Hin Hspec]]]. exists l.
      rewrite <- !list_elem_of_In. split; [|exact Hspec].
      apply list_elem_of_fmap. exists (k, l). auto.
  - intros Hperm. rewrite !Hflat. apply concat_snd_perm, Hperm.
  - rewrite Hinline. repeat case_match; simpl; lia.
  - intros data. rewrite Hinline.
    destruct (blueprint.GetFDO c) as [fdo|];
      [|intros Hin; apply elem_of_nil in Hin; tauto].
    destruct (String.eqb_spec (blueprint.DiunPubKeyRootCerts fdo) "")
      as [Hempty | Hset]; [intros Hin; apply elem_of_nil in Hin; tauto|].
    intros Hin. apply list_elem_of_singleton in Hin as ->. exact Hset.
Qed.

End Assembly.

Section AssemblyRuns.

#[local] Existing Instances
  sample.blueprintAPI sample.blueprintMethods sample.diskAPI
  sample.imports.
Import rhel8.

Lemma validation_comes_first_run :
  Manifest (DP := sample.strict) sample.edgeRawImgType None
    sample.plainOptions [] [] [] 0
  = Go.Err EdgeRawRequiresURL
  /\ Manifest (DP := sample.strict) sample.edgeAMIImgType None
       sample.commitOptions [] [] [sample.registry] 0
     = Go.Err (EmbeddingContainersUnsupported "edge-ami" "rhel-88").
Proof.
  split.
  - destruct (validation_comes_first (DP := sample.strict)
                sample.edgeRawImgType None sample.plainOptions [] [] [] 0
                EdgeRawRequiresURL eq_refl) as [_ [_ Hnew]].
    apply Hnew; [vm_compute; eauto | reflexivity].
  - destruct (validation_comes_first (DP := sample.strict)
                sample.edgeAMIImgType None sample.commitOptions [] []
                [sample.registry] 0
                (EmbeddingContainersUnsupported "edge-ami" "rhel-88")
                eq_refl) as [_ [Hold _]].
    apply Hold. reflexivity.
Defined.

End AssemblyRuns.
